(** * Shopping-cart storage variants: a shallow embedding

    The repository holds several React implementations of one shopping
    cart, each with another storage approach:

    - the _context_ variant keeps the cart in component state only;
    - the _IndexedDB_ variant writes every mutation to an object store and
      undoes the optimistic state update when the request fails;
    - the _hybrid_ variant mirrors the cart into [localStorage] at once,
      synchronises IndexedDB on a debounced timer and broadcasts every new
      snapshot to the other tabs.

    React state is modelled by explicit state passing: a provider is a
    record, an operation is a function on that record, and everything the
    provider does to the outside world (storage requests, broadcasts, timers,
    state updates) is appended to an event log carried in the record.
    Item identifiers are numbers compared with [===]. In the providers the
    numbers are integers ([Z]), which is what the sample products and the
    quantities counted by [addItem] are; what depends on the arithmetic of
    JavaScript numbers (the total, and the guard of [updateQuantity] on a
    quantity that is not a number) is stated in [Doubles], over the binary64
    floats of the kernel. [JSON.stringify] is written out for snapshots, the
    object store is a finite map keyed by [id], and time is a clock in
    milliseconds that [advance] moves forward, firing the timers that have
    come due. *)

From Stdlib Require Import ZArith List Lia Bool Permutation Ascii String.
From Stdlib Require Import DecimalString DecimalZ DecimalPos.
From Stdlib Require Import PrimFloat.
From stdpp Require Import base decidable option list strings gmap fin_maps sorting.
Import ListNotations.

Local Open Scope Z_scope.

(** ** Data model *)

(** A product as handed to [addItem]: [{ id, name, price, ...rest }]. *)
Module Product.
Record t := mk
  { id : Z;
    name : string;
    price : Z;
    fields : list (string * string) }.
End Product.

(** A cart line: a product plus its [quantity]. [fields] holds the keys
    other than [id], [name], [price] and [quantity]. *)
Module LineItem.
Record t := mk
  { id : Z;
    name : string;
    price : Z;
    quantity : Z;
    fields : list (string * string) }.

#[global] Instance eq_dec : EqDecision t.
Proof. solve_decision. Defined.

(** The keys that a spread followed by [quantity: q] copies as they are: a
    [quantity] key of the object spread is overwritten. *)
Definition other_fields (fs : list (string * string)) : list (string * string) :=
  List.filter (fun kv => negb (String.eqb kv.1 "quantity")) fs.

(** [{ ...product, quantity: q }] *)
Definition of_product (product : Product.t) (q : Z) : t :=
  {| id := Product.id product;
     name := Product.name product;
     price := Product.price product;
     quantity := q;
     fields := other_fields (Product.fields product) |}.

(** [{ ...item, quantity: q }] *)
Definition with_quantity (item : t) (q : Z) : t :=
  {| id := id item;
     name := name item;
     price := price item;
     quantity := q;
     fields := fields item |}.
End LineItem.

Abbreviation Snapshot := (list LineItem.t).

(** ** The state updaters

    The functions passed to [setItems] in the context variant; the hybrid
    variant computes its [newItems] with the same expressions. *)

(** [prev.find(item => item.id === product.id)] *)
Definition find_item (productId : Z) (prev : Snapshot) : option LineItem.t :=
  List.find (fun item => LineItem.id item =? productId) prev.

Definition addItem_newItems (product : Product.t) (prev : Snapshot) : Snapshot :=
  let existingItem := find_item (Product.id product) prev in
  match existingItem with
  | Some _ =>
      map (fun item =>
             if LineItem.id item =? Product.id product
             then LineItem.with_quantity item (LineItem.quantity item + 1)
             else item) prev
  | None => prev ++ [LineItem.of_product product 1]
  end.

Definition updateQuantity_newItems (productId quantity : Z) (prev : Snapshot) : Snapshot :=
  map (fun item =>
         if LineItem.id item =? productId
         then LineItem.with_quantity item quantity
         else item) prev.

Definition removeItem_newItems (productId : Z) (prev : Snapshot) : Snapshot :=
  List.filter (fun item => negb (LineItem.id item =? productId)) prev.

Definition ids (items : Snapshot) : list Z := map LineItem.id items.

(** ** The context variant *)

Module Context.
(** The provider's only state is [items]. *)
Definition State := Snapshot.

Definition init : State := [].

Definition addItem (product : Product.t) (prev : State) : State :=
  addItem_newItems product prev.

Definition updateQuantity (productId quantity : Z) (prev : State) : State :=
  if quantity <? 1 then prev
  else updateQuantity_newItems productId quantity prev.

Definition removeItem (productId : Z) (prev : State) : State :=
  removeItem_newItems productId prev.
End Context.

(** Sample products of the demo pages. *)
Definition laptop : Product.t := Product.mk 1 "Laptop" 999 [].
Definition smartphone : Product.t := Product.mk 2 "Smartphone" 699 [].
Definition headphones : Product.t := Product.mk 3 "Headphones" 199 [].

(** Sample snapshots. *)
Definition cached_cart : Snapshot := [LineItem.of_product laptop 1].
Definition red_laptop : LineItem.t := LineItem.mk 1 "Laptop" 999 1 [("color", "red")].
Definition blue_laptop : LineItem.t := LineItem.mk 1 "Laptop" 999 1 [("color", "blue")].

(** ** The context variant over IEEE doubles

    [price] and [quantity] are JavaScript numbers, that is binary64 values:
    a price can have cents, [total] is a sum of doubles taken from left to
    right, and the quantity that the page hands to [updateQuantity] is
    [parseInt(e.target.value)], which is [NaN] when the box is empty. The
    comparison [quantity < 1] is false when [quantity] is [NaN]. *)

Module Doubles.
Record Product := mkProduct
  { product_id : Z;
    product_name : string;
    product_price : float;
    product_fields : list (string * string) }.

Record LineItem := mkLineItem
  { id : Z;
    name : string;
    price : float;
    quantity : float;
    fields : list (string * string) }.

(** [{ ...product, quantity: q }] *)
Definition of_product (product : Product) (q : float) : LineItem :=
  {| id := product_id product;
     name := product_name product;
     price := product_price product;
     quantity := q;
     fields := LineItem.other_fields (product_fields product) |}.

(** [{ ...item, quantity: q }] *)
Definition with_quantity (item : LineItem) (q : float) : LineItem :=
  {| id := id item;
     name := name item;
     price := price item;
     quantity := q;
     fields := fields item |}.

Definition addItem (product : Product) (prev : list LineItem) : list LineItem :=
  let existingItem := List.find (fun item => id item =? product_id product) prev in
  match existingItem with
  | Some _ =>
      map (fun item =>
             if id item =? product_id product
             then with_quantity item (quantity item + 1)%float
             else item) prev
  | None => prev ++ [of_product product 1%float]
  end.

Definition updateQuantity (productId : Z) (quantity : float) (prev : list LineItem)
    : list LineItem :=
  if (quantity <? 1)%float then prev
  else map (fun item =>
              if id item =? productId
              then with_quantity item quantity
              else item) prev.

Definition removeItem (productId : Z) (prev : list LineItem) : list LineItem :=
  List.filter (fun item => negb (id item =? productId)) prev.

(** [items.reduce((sum, item) => sum + (item.price * item.quantity), 0)] *)
Definition total (items : list LineItem) : float :=
  fold_left (fun sum item => (sum + price item * quantity item)%float) items 0%float.

(** The snapshots reached from the empty cart by the updaters. *)
Inductive reachable : list LineItem -> Prop :=
| reachable_empty : reachable []
| reachable_addItem product s : reachable s -> reachable (addItem product s)
| reachable_updateQuantity productId quantity s :
    reachable s -> reachable (updateQuantity productId quantity s)
| reachable_removeItem productId s : reachable s -> reachable (removeItem productId s).

Definition laptop : Product := mkProduct 1 "Laptop" 999%float [].

(** A product that costs nothing. *)
Definition sample : Product := mkProduct 4 "Sample" 0%float [].

(** Three lines with prices in cents: the doubles that the literals [0.1],
    [0.2] and [0.3] denote. *)
Definition dime : LineItem :=
  mkLineItem 1 "Dime" 0x1.999999999999ap-4%float 1%float [].
Definition two_dimes : LineItem :=
  mkLineItem 2 "Two dimes" 0x1.999999999999ap-3%float 1%float [].
Definition three_dimes : LineItem :=
  mkLineItem 3 "Three dimes" 0x1.3333333333333p-2%float 1%float [].
End Doubles.

(** ** The IndexedDB object store

    One object store, created with [{ keyPath: 'id' }]: a finite map from the
    [id] of a record to the record. *)

Module ObjectStore.
Abbreviation t := (gmap Z LineItem.t).

(** [store.add(item)]: the request fails when the key is taken. *)
Definition add (item : LineItem.t) (store : t) : option t :=
  match store !! LineItem.id item with
  | Some _ => None
  | None => Some (<[LineItem.id item := item]> store)
  end.

(** [store.put(item)] *)
Definition put (item : LineItem.t) (store : t) : t :=
  <[LineItem.id item := item]> store.

(** [store.delete(productId)] *)
Definition delete (productId : Z) (store : t) : t :=
  base.delete productId store.

(** [store.clear()] *)
Definition clear (store : t) : t := ∅.

Definition key_le (a b : Z * LineItem.t) : Prop := a.1 ≤ b.1.

#[global] Instance key_le_dec : RelDecision key_le.
Proof. intros a b. unfold key_le. apply _. Defined.

(** [store.getAll()]: the records in ascending key order. *)
Definition getAll (store : t) : Snapshot :=
  map snd (merge_sort key_le (map_to_list store)).

(** [store.add] of every item of a list in turn, stopping at the first
    request that fails. *)
Fixpoint add_each (newItems : Snapshot) (store : t) : option t :=
  match newItems with
  | [] => Some store
  | item :: rest =>
      match add item store with
      | Some store' => add_each rest store'
      | None => None
      end
  end.
End ObjectStore.

(** ** [JSON.stringify] on snapshots

    The text of an item lists its keys in the order in which
    [{ ...product, quantity: 1 }] creates them: the fields of the product,
    then [quantity]. Numbers are integers, written in decimal. *)

Module JSON.
Definition quote : ascii := "034"%char.
Definition backslash : ascii := "\"%char.

(** Inside a string literal the quote and the backslash are escaped; the
    control characters, which [JSON.stringify] escapes as well, are written
    as they are. *)
Definition escape (c : ascii) : list ascii :=
  if Ascii.eqb c quote then [backslash; quote]
  else if Ascii.eqb c backslash then [backslash; backslash]
  else [c].

Definition text (s : string) : list ascii :=
  quote :: flat_map escape (list_ascii_of_string s) ++ [quote].

Definition number (z : Z) : list ascii :=
  list_ascii_of_string (NilEmpty.string_of_int (Z.to_int z)).

Definition member (key : string) (value : list ascii) : list ascii :=
  text key ++ ":"%char :: value.

Definition object (item : LineItem.t) : list ascii :=
  "{"%char :: member "id" (number (LineItem.id item))
  ++ ","%char :: member "name" (text (LineItem.name item))
  ++ ","%char :: member "price" (number (LineItem.price item))
  ++ flat_map (fun kv => ","%char :: member kv.1 (text kv.2)) (LineItem.fields item)
  ++ ","%char :: member "quantity" (number (LineItem.quantity item))
  ++ ["}"%char].

Fixpoint elements (s : Snapshot) : list ascii :=
  match s with
  | [] => []
  | item :: rest =>
      object item ++ match rest with
                     | [] => []
                     | _ => ","%char :: elements rest
                     end
  end.

Definition stringify (s : Snapshot) : string :=
  string_of_list_ascii ("["%char :: elements s ++ ["]"%char]).

(** The characters of a number. *)
Definition numeric (c : ascii) : Prop := In c (list_ascii_of_string "0123456789-").

(** The members after [price]: the other product fields, then [quantity],
    the closing brace and whatever follows the object. *)
Definition tail_members (fs : list (string * string)) (q : Z) (r : list ascii) : list ascii :=
  flat_map (fun kv => ","%char :: member kv.1 (text kv.2)) fs
  ++ ","%char :: member "quantity" (number q) ++ "}"%char :: r.
End JSON.

(** ** The hybrid variant

    [localStorage] for the first render, IndexedDB behind a debounce timer,
    a [BroadcastChannel] towards the other tabs. *)

Module Hybrid.

(** What the [localStorage] slot [STORAGE_KEY] holds: [Json s] is the text
    [JSON.stringify s], which [JSON.parse] reads back as [s]; [Malformed] is
    any text that [JSON.parse] rejects. *)
Inductive Stored :=
| Json (s : Snapshot)
| Malformed.

(** The effects of the provider, in the order in which it performs them. *)
Inductive Event :=
| SetItems (s : Snapshot)
| SetLoading (b : bool)
| LocalStorageSet (s : Snapshot)
| LocalStorageRemove
| SetTimeout (timer : positive) (due : nat)
| ClearTimeout (timer : positive)
| PostMessage (s : Snapshot)
| StoreSync (s : Snapshot) (ok : bool)
| StoreClear
| ConsoleError.

#[global] Instance event_eq_dec : EqDecision Event.
Proof. solve_decision. Defined.

(** A pending [setTimeout]: its callback is the body of [syncToIndexedDB],
    closed over [newItems]. Timer ids are positive numbers, so a stored id
    always passes the test [if (syncTimeoutRef.current)]. *)
Record Timer := mkTimer
  { timer_id : positive;
    due : nat;
    newItems : Snapshot }.

(** The provider ([items], [loading], [dbRef], [syncTimeoutRef]) together
    with the part of the browser it talks to: the [localStorage] slot, the
    object store, the timer table, the clock in milliseconds, and the log. *)
Record State := mkState
  { items : Snapshot;
    loading : bool;
    dbRef : bool;
    syncTimeoutRef : option positive;
    localStorage : option Stored;
    cart : ObjectStore.t;
    timers : list Timer;
    next_timer : positive;
    clock : nat;
    log : list Event }.

Definition emit (e : Event) (st : State) : State :=
  mkState (items st) (loading st) (dbRef st) (syncTimeoutRef st) (localStorage st)
          (cart st) (timers st) (next_timer st) (clock st) (log st ++ [e]).

Definition setItems (s : Snapshot) (st : State) : State :=
  emit (SetItems s)
    (mkState s (loading st) (dbRef st) (syncTimeoutRef st) (localStorage st)
             (cart st) (timers st) (next_timer st) (clock st) (log st)).

Definition setLoading (b : bool) (st : State) : State :=
  emit (SetLoading b)
    (mkState (items st) b (dbRef st) (syncTimeoutRef st) (localStorage st)
             (cart st) (timers st) (next_timer st) (clock st) (log st)).

Definition set_dbRef (b : bool) (st : State) : State :=
  mkState (items st) (loading st) b (syncTimeoutRef st) (localStorage st)
          (cart st) (timers st) (next_timer st) (clock st) (log st).

Definition set_localStorage (v : option Stored) (st : State) : State :=
  mkState (items st) (loading st) (dbRef st) (syncTimeoutRef st) v
          (cart st) (timers st) (next_timer st) (clock st) (log st).

Definition set_cart (store : ObjectStore.t) (st : State) : State :=
  mkState (items st) (loading st) (dbRef st) (syncTimeoutRef st) (localStorage st)
          store (timers st) (next_timer st) (clock st) (log st).

Definition set_timers (ts : list Timer) (st : State) : State :=
  mkState (items st) (loading st) (dbRef st) (syncTimeoutRef st) (localStorage st)
          (cart st) ts (next_timer st) (clock st) (log st).

Definition set_clock (now : nat) (st : State) : State :=
  mkState (items st) (loading st) (dbRef st) (syncTimeoutRef st) (localStorage st)
          (cart st) (timers st) (next_timer st) now (log st).

(** [localStorage.setItem(STORAGE_KEY, JSON.stringify(s))] *)
Definition localStorage_setItem (s : Snapshot) (st : State) : State :=
  emit (LocalStorageSet s) (set_localStorage (Some (Json s)) st).

(** [localStorage.removeItem(STORAGE_KEY)] *)
Definition localStorage_removeItem (st : State) : State :=
  emit LocalStorageRemove (set_localStorage None st).

(** [clearTimeout(timer)] *)
Definition clearTimeout (timer : positive) (st : State) : State :=
  emit (ClearTimeout timer)
    (set_timers (List.filter (fun t => negb (timer_id t =? timer)%positive) (timers st)) st).

(** The delay given to [setTimeout] in [syncToIndexedDB]. *)
Definition debounce : nat := 1000.

(** [syncTimeoutRef.current = setTimeout(callback, 1000)] *)
Definition setTimeout (s : Snapshot) (st : State) : State :=
  let timer := next_timer st in
  let at_ := (clock st + debounce)%nat in
  emit (SetTimeout timer at_)
    (mkState (items st) (loading st) (dbRef st) (Some timer) (localStorage st)
             (cart st) (timers st ++ [mkTimer timer at_ s]) (Pos.succ timer) (clock st) (log st)).

Definition syncToIndexedDB (s : Snapshot) (st : State) : State :=
  let st1 :=
    match syncTimeoutRef st with
    | Some timer => clearTimeout timer st
    | None => st
    end in
  setTimeout s st1.

(** The callback of the timer, run when the timer fires. [ok] tells whether
    the browser carries the requests out; a request can also fail on its own,
    [store.add] on a key that is present. A failed request aborts the
    transaction, and the [catch] only logs. *)
Definition sync_callback (s : Snapshot) (ok : bool) (st : State) : State :=
  if negb (dbRef st) then st
  else
    match (if ok then ObjectStore.add_each s (ObjectStore.clear (cart st)) else None) with
    | Some store => emit (StoreSync s true) (set_cart store st)
    | None => emit ConsoleError (emit (StoreSync s false) st)
    end.

Definition notifyOtherTabs (s : Snapshot) (st : State) : State :=
  emit (PostMessage s) st.

Definition updateStorage (s : Snapshot) (st : State) : State :=
  notifyOtherTabs s (syncToIndexedDB s (localStorage_setItem s st)).

Definition addItem (product : Product.t) (st : State) : State :=
  let s := addItem_newItems product (items st) in
  setItems s (updateStorage s st).

Definition updateQuantity (productId quantity : Z) (st : State) : State :=
  if quantity <? 1 then st
  else
    let s := updateQuantity_newItems productId quantity (items st) in
    setItems s (updateStorage s st).

Definition removeItem (productId : Z) (st : State) : State :=
  let s := removeItem_newItems productId (items st) in
  setItems s (updateStorage s st).

Definition clearCart (st : State) : State :=
  let st1 := setItems [] st in
  let st2 := localStorage_removeItem st1 in
  let st3 :=
    if dbRef st2
    then emit StoreClear (set_cart (ObjectStore.clear (cart st2)) st2)
    else st2 in
  notifyOtherTabs [] st3.

(** The listener of the channel; [type] and [received] are
    [event.data.type] and [event.data.items]. *)
Definition handleMessage (type : string) (received : Snapshot) (st : State) : State :=
  if String.eqb type "CART_UPDATED"
  then
    if negb (String.eqb (JSON.stringify (items st)) (JSON.stringify received))
    then setItems received st
    else st
  else st.

(** The first effect: the synchronous read of [localStorage]. *)
Definition mount (st : State) : State :=
  match localStorage st with
  | Some (Json s) => setItems s st
  | Some Malformed => emit ConsoleError st
  | None => st
  end.

(** [request.onsuccess] of the [getAll] request issued by [init]. *)
Definition init_onsuccess (result : Snapshot) (st : State) : State :=
  let st1 :=
    if (0 <? length result)%nat
    then localStorage_setItem result (setItems result st)
    else st in
  setLoading false st1.

(** [await initDB()] inside [init]: on success the handle is stored in
    [dbRef]; on failure the [catch] logs and ends the loading phase. *)
Definition init_open (ok : bool) (st : State) : State :=
  if ok then set_dbRef true st
  else setLoading false (emit ConsoleError st).

(** [init] with nothing else happening between the opening of the database
    and the answer of [getAll]. *)
Definition init (ok : bool) (st : State) : State :=
  if ok then
    let st1 := init_open true st in
    init_onsuccess (ObjectStore.getAll (cart st1)) st1
  else init_open false st.

(** Time passes: the clock moves by [dt] and every timer that has come due
    runs its callback, the oldest first. *)
Definition advance (dt : nat) (ok : bool) (st : State) : State :=
  let now := (clock st + dt)%nat in
  let ready := List.filter (fun t => (due t <=? now)%nat) (timers st) in
  let waiting := List.filter (fun t => negb (due t <=? now)%nat) (timers st) in
  fold_left (fun s t => sync_callback (newItems t) ok s) ready
            (set_clock now (set_timers waiting st)).

(** A freshly constructed provider in a browser whose storage holds [ls] and
    [store]. *)
Definition initial (ls : option Stored) (store : ObjectStore.t) : State :=
  mkState [] true false None ls store [] 1%positive 0 [].

(** What can happen to a mounted provider. *)
Inductive Action :=
| AddItem (product : Product.t)
| UpdateQuantity (productId quantity : Z)
| RemoveItem (productId : Z)
| ClearCart
| Message (type : string) (received : Snapshot)
| Mount
| InitOpen (ok : bool)
| InitOnSuccess
| Advance (dt : nat) (ok : bool).

Definition step (st : State) (a : Action) : State :=
  match a with
  | AddItem product => addItem product st
  | UpdateQuantity productId quantity => updateQuantity productId quantity st
  | RemoveItem productId => removeItem productId st
  | ClearCart => clearCart st
  | Message type received => handleMessage type received st
  | Mount => mount st
  | InitOpen ok => init_open ok st
  | InitOnSuccess => init_onsuccess (ObjectStore.getAll (cart st)) st
  | Advance dt ok => advance dt ok st
  end.

Definition run (acts : list Action) (st : State) : State :=
  fold_left step acts st.

(** *** Vocabulary for the properties *)

(** The events logged while [acts] run from [st]. *)
Definition effects (acts : list Action) (st : State) : list Event :=
  drop (length (log st)) (log (run acts st)).

(** The requests that write to the durable tier. *)
Definition is_durable_write (e : Event) : bool :=
  match e with
  | StoreSync _ _ | StoreClear => true
  | _ => false
  end.

Definition durable_writes (l : list Event) : list Event :=
  List.filter is_durable_write l.

Definition is_broadcast (e : Event) : bool :=
  match e with
  | PostMessage _ => true
  | _ => false
  end.

(** The four mutations of the provider. *)
Definition mutation (a : Action) : bool :=
  match a with
  | AddItem _ | UpdateQuantity _ _ | RemoveItem _ | ClearCart => true
  | _ => false
  end.

(** The mutations that go through [updateStorage], hence through the
    debounce timer: [clearCart] does not, and [updateQuantity] returns before
    it when the quantity is below 1. *)
Definition debounced (a : Action) : bool :=
  match a with
  | AddItem _ | RemoveItem _ => true
  | UpdateQuantity _ quantity => negb (quantity <? 1)
  | _ => false
  end.

(** A burst: a first mutation, then further ones, each [gap] milliseconds
    after the one before it. *)
Definition burst (first : Action) (rest : list (nat * Action)) : list Action :=
  first :: flat_map (fun gm => [Advance gm.1 true; gm.2]) rest.

(** The timer table holds nothing, or the one timer [syncTimeoutRef] names. *)
Definition timers_wf (st : State) : Prop :=
  match timers st with
  | [] => True
  | [t] => syncTimeoutRef st = Some (timer_id t)
  | _ => False
  end.

(** The provider right after a debounced mutation: one timer, due one
    debounce delay from now, holding the current snapshot. *)
Definition armed (st : State) : Prop :=
  exists n,
    timers st = [mkTimer n (clock st + debounce) (items st)]
    /\ syncTimeoutRef st = Some n
    /\ dbRef st = true.

(** From [st] to [st'] the log has only grown, by no durable write, and the
    object store is what it was. *)
Definition quiet (st st' : State) : Prop :=
  cart st' = cart st
  /\ exists new, log st' = log st ++ new /\ durable_writes new = [].

(** A log respects "notify after durable confirmation" when every snapshot
    it broadcasts has been written to the object store before, with
    success. *)
Fixpoint published_after_sync (confirmed : list Snapshot) (l : list Event) : bool :=
  match l with
  | [] => true
  | StoreSync s true :: rest => published_after_sync (s :: confirmed) rest
  | StoreClear :: rest => published_after_sync ([] :: confirmed) rest
  | PostMessage s :: rest =>
      bool_decide (s ∈ confirmed) && published_after_sync confirmed rest
  | _ :: rest => published_after_sync confirmed rest
  end.

(** The states reached from an empty cart by the four mutations. *)
Inductive reachable : State -> Prop :=
| reachable_empty st : items st = [] -> reachable st
| reachable_step st a : reachable st -> mutation a = true -> reachable (step st a).

End Hybrid.

(** ** The IndexedDB variant

    Every mutation updates the state at once and then awaits one request on
    the object store; [ok] is the outcome of that request. Each operation is
    written as it runs when nothing else touches the provider while the
    request is in flight, so that the closure's [items] and the [prev] of the
    updaters are the same snapshot. *)

Module IndexedDB.

Inductive Event :=
| SetItems (s : Snapshot)
| SetLoading (b : bool)
| Put (item : LineItem.t) (ok : bool)
| Delete (productId : Z) (ok : bool)
| Clear (ok : bool)
| PostMessage
| ConsoleError.

#[global] Instance event_eq_dec : EqDecision Event.
Proof. solve_decision. Defined.

Record State := mkState
  { items : Snapshot;
    loading : bool;
    db : bool;
    cart : ObjectStore.t;
    log : list Event }.

Definition emit (e : Event) (st : State) : State :=
  mkState (items st) (loading st) (db st) (cart st) (log st ++ [e]).

(** [setItems(prev => f(prev))] *)
Definition setItems (f : Snapshot -> Snapshot) (st : State) : State :=
  let s := f (items st) in
  emit (SetItems s) (mkState s (loading st) (db st) (cart st) (log st)).

Definition setLoading (b : bool) (st : State) : State :=
  emit (SetLoading b) (mkState (items st) b (db st) (cart st) (log st)).

Definition setDb (b : bool) (st : State) : State :=
  mkState (items st) (loading st) b (cart st) (log st).

Definition set_cart (store : ObjectStore.t) (st : State) : State :=
  mkState (items st) (loading st) (db st) store (log st).

(** [channel.postMessage({ type: 'CART_UPDATED' })]: no payload. *)
Definition notifyOtherTabs (st : State) : State := emit PostMessage st.

Definition addItem (product : Product.t) (ok : bool) (st : State) : State :=
  if negb (db st) then st
  else
    let existingItem := find_item (Product.id product) (items st) in
    let newItem :=
      match existingItem with
      | Some e => LineItem.with_quantity e (LineItem.quantity e + 1)
      | None => LineItem.of_product product 1
      end in
    let st1 :=
      setItems (fun prev =>
                  match existingItem with
                  | Some _ =>
                      map (fun item =>
                             if LineItem.id item =? Product.id product
                             then newItem else item) prev
                  | None => prev ++ [newItem]
                  end) st in
    if ok
    then notifyOtherTabs
           (emit (Put newItem true) (set_cart (ObjectStore.put newItem (cart st1)) st1))
    else
      setItems (fun prev =>
                  match existingItem with
                  | Some _ => prev
                  | None =>
                      List.filter (fun item => negb (LineItem.id item =? Product.id product)) prev
                  end)
               (emit ConsoleError (emit (Put newItem false) st1)).

Definition updateQuantity (productId quantity : Z) (ok : bool) (st : State) : State :=
  if negb (db st) || (quantity <? 1) then st
  else
    match find_item productId (items st) with
    | None => st
    | Some item =>
        let updatedItem := LineItem.with_quantity item quantity in
        let st1 :=
          setItems (fun prev =>
                      map (fun item =>
                             if LineItem.id item =? productId
                             then updatedItem else item) prev) st in
        if ok
        then notifyOtherTabs
               (emit (Put updatedItem true) (set_cart (ObjectStore.put updatedItem (cart st1)) st1))
        else
          setItems (fun prev =>
                      map (fun item =>
                             if LineItem.id item =? productId
                             then LineItem.with_quantity item (LineItem.quantity item)
                             else item) prev)
                   (emit ConsoleError (emit (Put updatedItem false) st1))
    end.

Definition removeItem (productId : Z) (ok : bool) (st : State) : State :=
  if negb (db st) then st
  else
    let removedItem := find_item productId (items st) in
    let st1 :=
      setItems (fun prev =>
                  List.filter (fun item => negb (LineItem.id item =? productId)) prev) st in
    if ok
    then notifyOtherTabs
           (emit (Delete productId true) (set_cart (ObjectStore.delete productId (cart st1)) st1))
    else
      let st2 := emit ConsoleError (emit (Delete productId false) st1) in
      match removedItem with
      | Some r => setItems (fun prev => prev ++ [r]) st2
      | None => st2
      end.

Definition clearCart (ok : bool) (st : State) : State :=
  if negb (db st) then st
  else
    let oldItems := items st in
    let st1 := setItems (fun _ => []) st in
    if ok
    then notifyOtherTabs (emit (Clear true) (set_cart (ObjectStore.clear (cart st1)) st1))
    else setItems (fun _ => oldItems) (emit ConsoleError (emit (Clear false) st1)).

(** The mount effect: open the database, read everything, end loading. *)
Definition init (ok : bool) (st : State) : State :=
  if ok then
    let st1 := setDb true st in
    setLoading false (setItems (fun _ => ObjectStore.getAll (cart st1)) st1)
  else setLoading false (emit ConsoleError st).

(** The listener: a bare signal, answered by re-reading the store. *)
Definition handleMessage (type : string) (st : State) : State :=
  if String.eqb type "CART_UPDATED" && db st
  then setItems (fun _ => ObjectStore.getAll (cart st)) st
  else st.

Definition initial (store : ObjectStore.t) : State :=
  mkState [] true false store [].

(** The four mutations of the provider. *)
Inductive Mutation :=
| AddItem (product : Product.t)
| UpdateQuantity (productId quantity : Z)
| RemoveItem (productId : Z)
| ClearCart.

Definition mutate (m : Mutation) (ok : bool) (st : State) : State :=
  match m with
  | AddItem product => addItem product ok st
  | UpdateQuantity productId quantity => updateQuantity productId quantity ok st
  | RemoveItem productId => removeItem productId ok st
  | ClearCart => clearCart ok st
  end.

(** The events logged by one mutation. *)
Definition effects (m : Mutation) (ok : bool) (st : State) : list Event :=
  drop (length (log st)) (log (mutate m ok st)).

(** A log respects "notify after confirmation" when every [PostMessage] in
    it comes directly after a request that succeeded. *)
Fixpoint notified_after_success (confirmed : bool) (l : list Event) : bool :=
  match l with
  | [] => true
  | PostMessage :: rest => confirmed && notified_after_success false rest
  | Put _ ok :: rest | Delete _ ok :: rest | Clear ok :: rest =>
      notified_after_success ok rest
  | _ :: rest => notified_after_success false rest
  end.

End IndexedDB.

(** ** Value equality of snapshots, as the specification words it

    Element-wise comparison of [id], [name], [price] and [quantity]. *)

Definition same_values (a b : LineItem.t) : bool :=
  (LineItem.id a =? LineItem.id b)
  && String.eqb (LineItem.name a) (LineItem.name b)
  && (LineItem.price a =? LineItem.price b)
  && (LineItem.quantity a =? LineItem.quantity b).

Fixpoint value_equal (a b : Snapshot) : bool :=
  match a, b with
  | [], [] => true
  | x :: a', y :: b' => same_values x y && value_equal a' b'
  | _, _ => false
  end.

(** ** Teardown and the fast tier of the hybrid provider *)

Module Lifecycle.
(** The cleanup of the mount effect:
    [if (syncTimeoutRef.current) clearTimeout(syncTimeoutRef.current)]. *)
Definition unmount (st : Hybrid.State) : Hybrid.State :=
  match Hybrid.syncTimeoutRef st with
  | Some timer => Hybrid.clearTimeout timer st
  | None => st
  end.



(** The one action that stores a database handle in [dbRef]. *)
Definition opens_database (a : Hybrid.Action) : bool :=
  match a with
  | Hybrid.InitOpen true => true
  | _ => false
  end.

(** The snapshot a mutation broadcasts, read off the log of the call. *)
Definition broadcasts (a : Hybrid.Action) (st : Hybrid.State) : list Hybrid.Event :=
  List.filter Hybrid.is_broadcast (Hybrid.effects [a] st).
End Lifecycle.

(** ** Agreement of snapshot and object store in the IndexedDB variant *)

Module Sync.
(** Every record sits under its own [id], as [keyPath: 'id'] makes it. *)
Definition keyed (store : gmap Z LineItem.t) : Prop :=
  forall k item, store !! k = Some item -> LineItem.id item = k.

(** The object store holds the items of the snapshot, each under its id. *)
Definition in_sync (st : IndexedDB.State) : Prop :=
  NoDup (ids (IndexedDB.items st))
  /\ forall k, IndexedDB.cart st !! k = find_item k (IndexedDB.items st).

(** A second tab: its own provider state over the database of the first. *)
Definition attach (store : gmap Z LineItem.t) (st : IndexedDB.State) : IndexedDB.State :=
  IndexedDB.set_cart store st.

(** What happens to a provider while every request succeeds: one of its
    mutations, or the arrival of a message. [notifyOtherTabs] posts on a
    channel object of its own, so the listener of the very provider that
    mutated receives the [CART_UPDATED] message as well, like the listeners
    of the other tabs. *)
Inductive Step :=
| Mutate (m : IndexedDB.Mutation)
| Message (type : string).

Definition step (st : IndexedDB.State) (a : Step) : IndexedDB.State :=
  match a with
  | Mutate m => IndexedDB.mutate m true st
  | Message type => IndexedDB.handleMessage type st
  end.

Definition run (steps : list Step) (st : IndexedDB.State) : IndexedDB.State :=
  fold_left step steps st.

(** Whether the mutation [m], started in [st], posts a message. *)
Definition posts (m : IndexedDB.Mutation) (st : IndexedDB.State) : bool :=
  bool_decide (IndexedDB.PostMessage ∈ IndexedDB.effects m true st).

(** A mutation followed by the delivery of the message it posted, if any, to
    the provider's own listener. *)
Definition perform (m : IndexedDB.Mutation) (st : IndexedDB.State) : IndexedDB.State :=
  let st' := IndexedDB.mutate m true st in
  if posts m st then IndexedDB.handleMessage "CART_UPDATED" st' else st'.

(** The provider's run for a sequence of mutations, each message delivered
    before the next mutation starts. *)
Definition session (ms : list IndexedDB.Mutation) (st : IndexedDB.State) : IndexedDB.State :=
  fold_left (fun s m => perform m s) ms st.

(** Ascending ids. *)
Definition id_le (a b : LineItem.t) : Prop := LineItem.id a <= LineItem.id b.
End Sync.

(** * Properties *)

(** ** The JSON text of a snapshot determines the snapshot *)

Lemma split_at_terminator (P : ascii -> Prop) (s1 s2 : list ascii) c1 c2 r1 r2 :
  Forall P s1 -> Forall P s2 -> ~ P c1 -> ~ P c2 ->
  s1 ++ c1 :: r1 = s2 ++ c2 :: r2 ->
  s1 = s2 /\ c1 = c2 /\ r1 = r2.
Proof.
  intros H1. revert s2. induction H1 as [|x s1 Hx _ IH]; intros s2 H2 Hc1 Hc2 E.
  - destruct H2 as [|y s2 Hy _]; simpl in E.
    + injection E as -> ->. auto.
    + injection E as -> _. contradiction.
  - destruct H2 as [|y s2 Hy H2]; simpl in E.
    + injection E as -> _. contradiction.
    + injection E as -> E. destruct (IH s2 H2 Hc1 Hc2 E) as (-> & -> & ->). auto.
Qed.

Lemma uint_numeric (d : Decimal.uint) :
  Forall JSON.numeric (list_ascii_of_string (NilEmpty.string_of_uint d)).
Proof.
  induction d; simpl; constructor; try assumption; unfold JSON.numeric; simpl; tauto.
Qed.

Lemma number_numeric z : Forall JSON.numeric (JSON.number z).
Proof.
  unfold JSON.number. destruct (Z.to_int z) as [d|d]; simpl.
  - apply uint_numeric.
  - constructor; [unfold JSON.numeric; simpl; tauto|apply uint_numeric].
Qed.

Lemma list_ascii_of_string_inj (a b : string) :
  list_ascii_of_string a = list_ascii_of_string b -> a = b.
Proof.
  intros E. rewrite <- (string_of_list_ascii_of_string a), E.
  apply string_of_list_ascii_of_string.
Qed.

Lemma number_inj a b : JSON.number a = JSON.number b -> a = b.
Proof.
  unfold JSON.number. intros E. apply list_ascii_of_string_inj in E.
  assert (E' : Z.to_int a = Z.to_int b).
  { pose proof (NilEmpty.isi (Z.to_int a)) as Ha.
    pose proof (NilEmpty.isi (Z.to_int b)) as Hb.
    rewrite E in Ha. congruence. }
  rewrite <- (DecimalZ.of_to a), E'. apply DecimalZ.of_to.
Qed.

Lemma number_head z : exists c r, JSON.number z = c :: r /\ JSON.numeric c.
Proof.
  pose proof (number_numeric z) as H.
  destruct (JSON.number z) as [|c r] eqn:E.
  - exfalso. unfold JSON.number in E. destruct z as [|p|p]; simpl in E; try discriminate.
    pose proof (Unsigned.to_uint_nonnil p) as Hp.
    destruct (Pos.to_uint p); simpl in E; try discriminate. contradiction.
  - inversion H; subst. eauto.
Qed.

Lemma escaped_inj (a b : list ascii) r r' :
  flat_map JSON.escape a ++ JSON.quote :: r = flat_map JSON.escape b ++ JSON.quote :: r' ->
  a = b /\ r = r'.
Proof.
  revert b. induction a as [|c a IH]; intros [|d b]; simpl; unfold JSON.escape.
  - intros E. injection E as ->. auto.
  - destruct (Ascii.eqb_spec d JSON.quote) as [->|Hq];
      [|destruct (Ascii.eqb_spec d JSON.backslash) as [->|Hb]]; simpl; intros E;
      injection E; intros; try discriminate; congruence.
  - destruct (Ascii.eqb_spec c JSON.quote) as [->|Hq];
      [|destruct (Ascii.eqb_spec c JSON.backslash) as [->|Hb]]; simpl; intros E;
      injection E; intros; try discriminate; congruence.
  - destruct (Ascii.eqb_spec c JSON.quote) as [->|Hq];
      [|destruct (Ascii.eqb_spec c JSON.backslash) as [->|Hb]];
      (destruct (Ascii.eqb_spec d JSON.quote) as [->|Hq'];
       [|destruct (Ascii.eqb_spec d JSON.backslash) as [->|Hb']]);
      simpl; intros E; injection E; intros; try discriminate; try congruence;
      match goal with
      | H : flat_map _ a ++ _ = flat_map _ b ++ _ |- _ =>
          destruct (IH b H) as [-> ->]; subst; auto
      end.
Qed.

Lemma text_inj (a b : string) r r' :
  JSON.text a ++ r = JSON.text b ++ r' -> a = b /\ r = r'.
Proof.
  unfold JSON.text. simpl. rewrite <- !app_assoc. simpl. intros E. injection E as E.
  apply escaped_inj in E as [E ->]. split; [apply list_ascii_of_string_inj, E|reflexivity].
Qed.

Lemma cons_eq {A} (x y : A) (a b : list A) : x :: a = y :: b -> x = y /\ a = b.
Proof. intros E. injection E as -> ->. auto. Qed.

Lemma number_then (a b : Z) c c' r r' :
  ~ JSON.numeric c -> ~ JSON.numeric c' ->
  JSON.number a ++ c :: r = JSON.number b ++ c' :: r' ->
  a = b /\ c :: r = c' :: r'.
Proof.
  intros Hc Hc' E.
  apply split_at_terminator with (P := JSON.numeric) in E as (E & -> & ->);
    auto using number_numeric.
  split; [apply number_inj, E|reflexivity].
Qed.

Lemma not_numeric_comma : ~ JSON.numeric ","%char.
Proof. unfold JSON.numeric. simpl. intuition discriminate. Qed.

Lemma not_numeric_brace : ~ JSON.numeric "}"%char.
Proof. unfold JSON.numeric. simpl. intuition discriminate. Qed.

Lemma not_numeric_quote : ~ JSON.numeric JSON.quote.
Proof. unfold JSON.numeric. simpl. intuition discriminate. Qed.

Lemma tail_members_nil q r :
  JSON.tail_members [] q r
  = ","%char :: JSON.text "quantity" ++ ":"%char :: JSON.number q ++ "}"%char :: r.
Proof.
  unfold JSON.tail_members, JSON.member. cbn [flat_map app].
  rewrite <- app_assoc. reflexivity.
Qed.

Lemma tail_members_cons k v fs q r :
  JSON.tail_members ((k, v) :: fs) q r
  = ","%char :: JSON.text k ++ ":"%char :: JSON.text v ++ JSON.tail_members fs q r.
Proof.
  unfold JSON.tail_members, JSON.member. cbn [flat_map fst snd].
  rewrite <- !app_assoc, <- !app_comm_cons, <- !app_assoc. reflexivity.
Qed.

Lemma tail_members_head fs q r : exists t, JSON.tail_members fs q r = ","%char :: t.
Proof.
  destruct fs as [|[k v] fs]; [rewrite tail_members_nil|rewrite tail_members_cons]; eauto.
Qed.

Lemma number_not_text q v (r r' : list ascii) :
  JSON.number q ++ r <> JSON.text v ++ r'.
Proof.
  destruct (number_head q) as (c & t & -> & Hc). unfold JSON.text. simpl.
  intros E. injection E as -> _. exact (not_numeric_quote Hc).
Qed.

Lemma tail_members_inj fs fs' q q' r r' :
  JSON.tail_members fs q r = JSON.tail_members fs' q' r' -> fs = fs' /\ q = q' /\ r = r'.
Proof.
  revert fs'. induction fs as [|[k v] fs IH]; intros [|[k' v'] fs'];
    rewrite ?tail_members_nil, ?tail_members_cons; intros E; apply cons_eq in E as [_ E];
    apply text_inj in E as [Ek E]; apply cons_eq in E as [_ E].
  - apply number_then in E as [-> E]; auto using not_numeric_brace.
    apply cons_eq in E as [_ ->]. auto.
  - exfalso. exact (number_not_text _ _ _ _ E).
  - exfalso. symmetry in E. exact (number_not_text _ _ _ _ E).
  - apply text_inj in E as [Ev E]. destruct (IH _ E) as (-> & -> & ->).
    subst. auto.
Qed.

Lemma object_unfold item r :
  JSON.object item ++ r
  = "{"%char :: JSON.text "id" ++ ":"%char :: JSON.number (LineItem.id item)
    ++ ","%char :: JSON.text "name" ++ ":"%char :: JSON.text (LineItem.name item)
    ++ ","%char :: JSON.text "price" ++ ":"%char :: JSON.number (LineItem.price item)
    ++ JSON.tail_members (LineItem.fields item) (LineItem.quantity item) r.
Proof.
  unfold JSON.object, JSON.tail_members, JSON.member.
  repeat (rewrite <- ?app_assoc, <- ?app_comm_cons). reflexivity.
Qed.

Lemma object_inj x y r r' :
  JSON.object x ++ r = JSON.object y ++ r' -> x = y /\ r = r'.
Proof.
  rewrite !object_unfold. intros E. apply cons_eq in E as [_ E].
  apply text_inj in E as [_ E]. apply cons_eq in E as [_ E].
  apply number_then in E as [Eid E]; auto using not_numeric_comma.
  apply cons_eq in E as [_ E].
  apply text_inj in E as [_ E]. apply cons_eq in E as [_ E].
  apply text_inj in E as [Ename E]. apply cons_eq in E as [_ E].
  apply text_inj in E as [_ E]. apply cons_eq in E as [_ E].
  destruct (tail_members_head (LineItem.fields x) (LineItem.quantity x) r) as [t Ht].
  destruct (tail_members_head (LineItem.fields y) (LineItem.quantity y) r') as [t' Ht'].
  rewrite Ht, Ht' in E.
  apply number_then in E as [Eprice E]; auto using not_numeric_comma.
  rewrite <- Ht, <- Ht' in E.
  apply tail_members_inj in E as (Ef & Eq & ->).
  split; [|reflexivity]. destruct x, y; simpl in *; congruence.
Qed.

Lemma elements_inj s s' r r' :
  JSON.elements s ++ "]"%char :: r = JSON.elements s' ++ "]"%char :: r' ->
  s = s' /\ r = r'.
Proof.
  revert s'. induction s as [|x s IH]; intros [|y s']; cbn [JSON.elements].
  - intros E. apply cons_eq in E as [_ ->]. auto.
  - rewrite <- app_assoc, object_unfold. discriminate.
  - rewrite <- app_assoc, object_unfold. discriminate.
  - rewrite <- !app_assoc. intros E. apply object_inj in E as [-> E].
    destruct s as [|z s], s' as [|z' s']; cbn [app] in E.
    + apply cons_eq in E as [_ ->]. auto.
    + discriminate E.
    + discriminate E.
    + apply cons_eq in E as [_ E]. apply IH in E as [-> ->]. auto.
Qed.

Lemma string_of_list_ascii_inj (a b : list ascii) :
  string_of_list_ascii a = string_of_list_ascii b -> a = b.
Proof.
  intros E. rewrite <- (list_ascii_of_string_of_list_ascii a), E.
  apply list_ascii_of_string_of_list_ascii.
Qed.

(** Two snapshots with the same JSON text are the same list of records. *)
Lemma stringify_inj s s' : JSON.stringify s = JSON.stringify s' -> s = s'.
Proof.
  unfold JSON.stringify. intros E. apply string_of_list_ascii_inj in E.
  apply cons_eq in E as [_ E]. apply elements_inj in E as [-> _]. reflexivity.
Qed.

Example stringify_empty : JSON.stringify [] = "[]"%string.
Proof. reflexivity. Qed.

Example stringify_length :
  String.length (JSON.stringify [LineItem.of_product laptop 2]) = 51%nat.
Proof. reflexivity. Qed.

Example stringify_other_field :
  String.eqb (JSON.stringify [red_laptop]) (JSON.stringify [blue_laptop]) = false.
Proof. reflexivity. Qed.

(** ** The updaters *)

Example cart_walkthrough :
  let s1 := Context.addItem laptop Context.init in
  let s2 := Context.addItem laptop s1 in
  let s3 := Context.updateQuantity 1 5 s2 in
  let s4 := Context.removeItem 1 s3 in
  (s1, s2, s3, s4)
  = ([LineItem.mk 1 "Laptop" 999 1 []], [LineItem.mk 1 "Laptop" 999 2 []],
     [LineItem.mk 1 "Laptop" 999 5 []], []).
Proof. reflexivity. Qed.

Lemma find_item_None productId (s : Snapshot) :
  find_item productId s = None <-> Forall (fun item => LineItem.id item <> productId) s.
Proof.
  unfold find_item. induction s as [|x s IH]; simpl.
  - split; auto.
  - destruct (Z.eqb_spec (LineItem.id x) productId) as [E|E].
    + split; [discriminate|]. intros H. inversion H; subst. contradiction.
    + rewrite IH. split; intros H.
      * constructor; assumption.
      * inversion H; assumption.
Qed.

Lemma find_item_Some productId (s : Snapshot) item :
  find_item productId s = Some item ->
  exists before after,
    s = before ++ item :: after /\ LineItem.id item = productId /\
    Forall (fun x => LineItem.id x <> productId) before.
Proof.
  unfold find_item. induction s as [|x s IH]; simpl; [discriminate|].
  destruct (Z.eqb_spec (LineItem.id x) productId) as [E|E]; intros H.
  - inversion H; subst. exists [], s. repeat split; auto.
  - destruct (IH H) as (before & after & -> & Hid & Hb).
    exists (x :: before), after. repeat split; auto.
Qed.

Lemma map_absent_id productId (f : LineItem.t -> LineItem.t) (s : Snapshot) :
  Forall (fun item => LineItem.id item <> productId) s ->
  map (fun item => if LineItem.id item =? productId then f item else item) s = s.
Proof.
  induction 1 as [|x s Hx _ IH]; simpl; [reflexivity|].
  rewrite IH. destruct (Z.eqb_spec (LineItem.id x) productId); congruence.
Qed.

Lemma filter_absent_id productId (s : Snapshot) :
  Forall (fun item => LineItem.id item <> productId) s ->
  List.filter (fun item => negb (LineItem.id item =? productId)) s = s.
Proof.
  induction 1 as [|x s Hx _ IH]; simpl; [reflexivity|].
  rewrite IH. destruct (Z.eqb_spec (LineItem.id x) productId); simpl; congruence.
Qed.

Lemma addItem_absent product (s : Snapshot) :
  Forall (fun item => LineItem.id item <> Product.id product) s ->
  addItem_newItems product s = s ++ [LineItem.of_product product 1].
Proof.
  intros H. unfold addItem_newItems.
  apply find_item_None in H. rewrite H. reflexivity.
Qed.

Lemma addItem_present product (s : Snapshot) q :
  Forall (fun item => LineItem.id item <> Product.id product) s ->
  addItem_newItems product (s ++ [LineItem.of_product product q])
  = s ++ [LineItem.of_product product (q + 1)].
Proof.
  intros H. unfold addItem_newItems.
  destruct (find_item _ _) eqn:E.
  - rewrite map_app, map_absent_id by assumption. simpl.
    rewrite Z.eqb_refl. reflexivity.
  - apply find_item_None in E. apply Forall_app in E as [_ E].
    inversion E; subst. simpl in *. congruence.
Qed.

Lemma addItem_iterated (n : nat) product (s : Snapshot) :
  Forall (fun item => LineItem.id item <> Product.id product) s ->
  Nat.iter (S n) (addItem_newItems product) s
  = s ++ [LineItem.of_product product (Z.of_nat (S n))].
Proof.
  intros H. induction n as [|n IH].
  - simpl. apply addItem_absent, H.
  - change (Nat.iter (S (S n)) (addItem_newItems product) s)
      with (addItem_newItems product (Nat.iter (S n) (addItem_newItems product) s)).
    rewrite IH, addItem_present by assumption.
    replace (Z.of_nat (S n) + 1) with (Z.of_nat (S (S n))) by lia. reflexivity.
Qed.

Lemma hybrid_items_addItem product st :
  Hybrid.items (Hybrid.addItem product st) = addItem_newItems product (Hybrid.items st).
Proof. reflexivity. Qed.

Lemma hybrid_items_updateQuantity productId quantity st :
  Hybrid.items (Hybrid.updateQuantity productId quantity st)
  = Context.updateQuantity productId quantity (Hybrid.items st).
Proof.
  unfold Hybrid.updateQuantity, Context.updateQuantity.
  destruct (quantity <? 1); reflexivity.
Qed.

Lemma hybrid_items_removeItem productId st :
  Hybrid.items (Hybrid.removeItem productId st)
  = removeItem_newItems productId (Hybrid.items st).
Proof. reflexivity. Qed.

Lemma hybrid_items_clearCart st : Hybrid.items (Hybrid.clearCart st) = [].
Proof. unfold Hybrid.clearCart. simpl. destruct (Hybrid.dbRef st); reflexivity. Qed.

Lemma hybrid_run_app acts1 acts2 st :
  Hybrid.run (acts1 ++ acts2) st = Hybrid.run acts2 (Hybrid.run acts1 st).
Proof. apply fold_left_app. Qed.

Lemma hybrid_items_addItem_repeat (n : nat) product st :
  Hybrid.items (Hybrid.run (repeat (Hybrid.AddItem product) n) st)
  = Nat.iter n (addItem_newItems product) (Hybrid.items st).
Proof.
  revert st. induction n as [|n IH]; intros st; [reflexivity|].
  rewrite Nat.iter_succ_r. simpl. rewrite IH. reflexivity.
Qed.

(** C4. Adding the same product [n >= 1] times to a snapshot that has no
    item with its id yields that snapshot followed by one new line item: the
    [id], the [name] and the [price] of the product, its other keys (a
    [quantity] key of the product is overwritten), and quantity [n]. The
    items that were there keep their values and their order, and exactly one
    item carries the product's id. The hybrid provider computes the same
    snapshots. *)
Theorem addItem_repeated (n : nat) (product : Product.t) (s : Snapshot) :
  (1 <= n)%nat ->
  Forall (fun item => LineItem.id item <> Product.id product) s ->
  let s' := Nat.iter n (Context.addItem product) s in
  s' = s ++ [LineItem.mk (Product.id product) (Product.name product)
               (Product.price product) (Z.of_nat n)
               (List.filter (fun kv => negb (String.eqb kv.1 "quantity"))
                  (Product.fields product))]
  /\ length (List.filter (fun item => LineItem.id item =? Product.id product) s') = 1%nat
  /\ forall st, Hybrid.items st = s ->
       Hybrid.items (Hybrid.run (repeat (Hybrid.AddItem product) n) st) = s'.
Proof.
  intros Hn Hs s'.
  assert (E : s' = s ++ [LineItem.of_product product (Z.of_nat n)]).
  { destruct n as [|n]; [lia|]. apply addItem_iterated, Hs. }
  split; [exact E|]. split.
  - rewrite E, List.filter_app. simpl. rewrite Z.eqb_refl.
    replace (List.filter _ s) with (@nil LineItem.t); [reflexivity|].
    symmetry. clear -Hs. induction Hs as [|x l Hx _ IH]; simpl; [reflexivity|].
    destruct (Z.eqb_spec (LineItem.id x) (Product.id product)); [contradiction|exact IH].
  - intros st <-. apply hybrid_items_addItem_repeat.
Qed.

Lemma addItem_repeated_witness :
  Nat.iter 3 (Context.addItem (Product.mk 1 "Laptop" 999 [("color", "red"); ("quantity", "5")]))
    [LineItem.mk 2 "Smartphone" 699 2 []]
  = [LineItem.mk 2 "Smartphone" 699 2 []; LineItem.mk 1 "Laptop" 999 3 [("color", "red")]].
Proof.
  apply (addItem_repeated 3 (Product.mk 1 "Laptop" 999 [("color", "red"); ("quantity", "5")])
           [LineItem.mk 2 "Smartphone" 699 2 []]).
  - lia.
  - repeat constructor. simpl. lia.
Defined.

Lemma updateQuantity_lookup productId quantity (s : Snapshot) (i : nat) item :
  s !! i = Some item ->
  updateQuantity_newItems productId quantity s !! i
  = Some (if LineItem.id item =? productId
          then LineItem.with_quantity item quantity else item).
Proof.
  intros H. unfold updateQuantity_newItems.
  change (map ?f s) with (f <$> s).
  rewrite list_lookup_fmap, H. reflexivity.
Qed.

Lemma find_item_unique productId (before after : Snapshot) item :
  LineItem.id item = productId ->
  Forall (fun x => LineItem.id x <> productId) before ->
  find_item productId (before ++ item :: after) = Some item.
Proof.
  intros Hid Hb. unfold find_item.
  induction Hb as [|x before Hx _ IH]; simpl.
  - apply Z.eqb_eq in Hid. rewrite Hid. reflexivity.
  - destruct (Z.eqb_spec (LineItem.id x) productId); [contradiction|exact IH].
Qed.

Lemma indexeddb_updateQuantity_spec productId quantity (s : Snapshot) :
  forall st ok, IndexedDB.items st = s ->
    (quantity < 1 -> IndexedDB.updateQuantity productId quantity ok st = st)
    /\ (Forall (fun item => LineItem.id item <> productId) s ->
        IndexedDB.updateQuantity productId quantity ok st = st)
    /\ (IndexedDB.db st = true -> 1 <= quantity ->
        forall before item after,
          s = before ++ item :: after ->
          LineItem.id item = productId ->
          Forall (fun x => LineItem.id x <> productId) before ->
          Forall (fun x => LineItem.id x <> productId) after ->
          IndexedDB.items (IndexedDB.updateQuantity productId quantity true st)
          = before ++ LineItem.with_quantity item quantity :: after).
Proof.
  intros st ok <-. unfold IndexedDB.updateQuantity. split; [|split].
  - intros Hq. apply Z.ltb_lt in Hq. rewrite Hq, orb_true_r. reflexivity.
  - intros Habsent. apply find_item_None in Habsent. rewrite Habsent.
    destruct (negb _ || _); reflexivity.
  - intros Hdb Hq before item after Hs Hid Hb Ha.
    rewrite Hdb. destruct (Z.ltb_spec quantity 1); [lia|].
    rewrite Hs, (find_item_unique productId before after item Hid Hb).
    cbn [negb orb IndexedDB.items IndexedDB.notifyOtherTabs IndexedDB.emit
         IndexedDB.set_cart IndexedDB.setItems].
    rewrite Hs, map_app. cbn [map]. rewrite !map_absent_id by assumption.
    apply Z.eqb_eq in Hid. rewrite Hid. reflexivity.
Qed.

(** C7. [updateQuantity] leaves the snapshot as it is when the quantity is
    below 1 or when no item has the id (the item is never removed). Otherwise
    the result has the same length and, position by position, an item with
    the id gets the new quantity and keeps its other fields while any other
    item is unchanged; with one item of that id, exactly that item is
    rewritten. In the hybrid variant a quantity below 1 changes nothing at
    all, and its snapshot is the one computed here. In the IndexedDB variant
    a quantity below 1 or an absent id change nothing at all, and otherwise,
    when the request succeeds, the snapshot gets the same rewrite. *)
Theorem updateQuantity_spec (productId quantity : Z) (s : Snapshot) :
  (quantity < 1 -> Context.updateQuantity productId quantity s = s)
  /\ (Forall (fun item => LineItem.id item <> productId) s ->
      Context.updateQuantity productId quantity s = s)
  /\ (1 <= quantity ->
      length (Context.updateQuantity productId quantity s) = length s
      /\ (forall (i : nat) item, s !! i = Some item ->
            Context.updateQuantity productId quantity s !! i
            = Some (if LineItem.id item =? productId
                    then LineItem.mk (LineItem.id item) (LineItem.name item)
                           (LineItem.price item) quantity (LineItem.fields item)
                    else item))
      /\ (forall before item after,
            s = before ++ item :: after ->
            LineItem.id item = productId ->
            Forall (fun x => LineItem.id x <> productId) before ->
            Forall (fun x => LineItem.id x <> productId) after ->
            Context.updateQuantity productId quantity s
            = before ++ LineItem.with_quantity item quantity :: after))
  /\ (forall st, Hybrid.items st = s ->
        Hybrid.items (Hybrid.updateQuantity productId quantity st)
        = Context.updateQuantity productId quantity s
        /\ (quantity < 1 -> Hybrid.updateQuantity productId quantity st = st))
  /\ (forall st ok, IndexedDB.items st = s ->
        (quantity < 1 -> IndexedDB.updateQuantity productId quantity ok st = st)
        /\ (Forall (fun item => LineItem.id item <> productId) s ->
            IndexedDB.updateQuantity productId quantity ok st = st)
        /\ (IndexedDB.db st = true -> 1 <= quantity ->
            forall before item after,
              s = before ++ item :: after ->
              LineItem.id item = productId ->
              Forall (fun x => LineItem.id x <> productId) before ->
              Forall (fun x => LineItem.id x <> productId) after ->
              IndexedDB.items (IndexedDB.updateQuantity productId quantity true st)
              = before ++ LineItem.with_quantity item quantity :: after)).
Proof.
  unfold Context.updateQuantity.
  split; [|split; [|split; [|split]]]; [| | | |apply indexeddb_updateQuantity_spec];
    repeat split.
  - intros H. apply Z.ltb_lt in H. rewrite H. reflexivity.
  - intros H. destruct (quantity <? 1); [reflexivity|].
    apply map_absent_id, H.
  - destruct (Z.ltb_spec quantity 1); [lia|].
    unfold updateQuantity_newItems. apply length_map.
  - intros i item Hi. destruct (Z.ltb_spec quantity 1); [lia|].
    apply updateQuantity_lookup, Hi.
  - intros before item after -> Hid Hb Ha.
    destruct (Z.ltb_spec quantity 1); [lia|].
    unfold updateQuantity_newItems. rewrite map_app. simpl.
    rewrite !map_absent_id by assumption.
    apply Z.eqb_eq in Hid. rewrite Hid. reflexivity.
  - subst s. apply hybrid_items_updateQuantity.
  - intros Hq. unfold Hybrid.updateQuantity.
    apply Z.ltb_lt in Hq. rewrite Hq. reflexivity.
Qed.

Lemma updateQuantity_spec_witness :
  Context.updateQuantity 1 0 [LineItem.of_product laptop 2] = [LineItem.of_product laptop 2]
  /\ Context.updateQuantity 2 5 [LineItem.of_product laptop 2] = [LineItem.of_product laptop 2]
  /\ Context.updateQuantity 1 5 [LineItem.of_product laptop 2; LineItem.of_product smartphone 1]
     = [LineItem.of_product laptop 5; LineItem.of_product smartphone 1].
Proof.
  split; [|split].
  - apply (proj1 (updateQuantity_spec 1 0 [LineItem.of_product laptop 2])). lia.
  - apply (proj1 (proj2 (updateQuantity_spec 2 5 [LineItem.of_product laptop 2]))).
    repeat constructor. simpl. lia.
  - destruct (updateQuantity_spec 1 5
                [LineItem.of_product laptop 2; LineItem.of_product smartphone 1])
      as (_ & _ & H & _).
    destruct H as (_ & _ & H); [lia|].
    apply (H [] (LineItem.of_product laptop 2) [LineItem.of_product smartphone 1]).
    + reflexivity.
    + reflexivity.
    + constructor.
    + repeat constructor. simpl. lia.
Defined.

(** ** The total *)

(** The total is a sum of doubles taken in cart order, so it depends on that
    order: the same three lines give [0.6000000000000001] in one order and
    [0.6] with the first line moved to the end. *)
Example total_depends_on_order :
  Doubles.total [Doubles.dime; Doubles.two_dimes; Doubles.three_dimes]
  = 0x1.3333333333334p-1%float
  /\ Doubles.total [Doubles.two_dimes; Doubles.three_dimes; Doubles.dime]
     = 0x1.3333333333333p-1%float
  /\ PrimFloat.eqb
       (Doubles.total [Doubles.dime; Doubles.two_dimes; Doubles.three_dimes])
       (Doubles.total [Doubles.two_dimes; Doubles.three_dimes; Doubles.dime]) = false.
Proof. vm_compute. repeat split. Qed.

(** C9. The guard [quantity < 1] of [updateQuantity] does not hold of [NaN],
    so a quantity that is not a number is stored like any other: on every
    cart, [updateQuantity] with [NaN] rewrites the quantity of the line. From
    the empty cart, [addItem] of the laptop and [updateQuantity(1, NaN)] (what
    the page calls when the quantity box is emptied) give a line whose
    quantity is not at least 1 and a total that is [NaN], hence not
    non-negative. With [Infinity] for a product that costs nothing, every
    price is non-negative and every quantity at least 1, and the total is
    [NaN] all the same. *)
Theorem total_NaN_after_updateQuantity :
  (forall productId s,
     Doubles.updateQuantity productId nan s
     = map (fun item =>
              if Doubles.id item =? productId
              then Doubles.with_quantity item nan
              else item) s)
  /\ (let s := Doubles.updateQuantity 1 nan (Doubles.addItem Doubles.laptop []) in
      Doubles.reachable s
      /\ s = [Doubles.mkLineItem 1 "Laptop" 999%float nan []]
      /\ Forall (fun item => (1 <=? Doubles.quantity item)%float = false) s
      /\ PrimFloat.is_nan (Doubles.total s) = true
      /\ (0 <=? Doubles.total s)%float = false)
  /\ (let s := Doubles.updateQuantity 4 infinity (Doubles.addItem Doubles.sample []) in
      Doubles.reachable s
      /\ Forall (fun item => (0 <=? Doubles.price item)%float = true
                             /\ (1 <=? Doubles.quantity item)%float = true) s
      /\ PrimFloat.is_nan (Doubles.total s) = true
      /\ (0 <=? Doubles.total s)%float = false).
Proof.
  split; [reflexivity|]. split.
  - split; [repeat constructor|]. vm_compute. repeat constructor.
  - split; [repeat constructor|]. vm_compute. repeat constructor.
Qed.

(** ** Cold start of the hybrid provider *)

(** C5, as stated, fails: with a cached cart in [localStorage] and an empty
    object store, the answer of the durable read is the empty snapshot, and
    the provider keeps the cached cart in memory and in [localStorage]. *)
Lemma init_empty_result_keeps_cache :
  let st := Hybrid.mount (Hybrid.initial (Some (Hybrid.Json cached_cart)) ∅) in
  let result := ObjectStore.getAll (Hybrid.cart st) in
  let st' := Hybrid.init true st in
  result = []
  /\ Hybrid.items st' <> result
  /\ Hybrid.localStorage st' <> Some (Hybrid.Json result)
  /\ Hybrid.loading st' = false.
Proof. vm_compute. repeat split; discriminate. Qed.

(** C5, amended. When the durable read answers, [loading] becomes false; a
    non-empty result replaces the snapshot and is written to [localStorage];
    an empty result leaves the snapshot and [localStorage] as they were. *)
Theorem init_onsuccess_spec (result : Snapshot) (st : Hybrid.State) :
  let st' := Hybrid.init_onsuccess result st in
  Hybrid.loading st' = false
  /\ (result <> [] ->
      Hybrid.items st' = result /\ Hybrid.localStorage st' = Some (Hybrid.Json result))
  /\ (result = [] ->
      Hybrid.items st' = Hybrid.items st /\ Hybrid.localStorage st' = Hybrid.localStorage st).
Proof.
  unfold Hybrid.init_onsuccess. destruct result as [|x result]; simpl.
  - repeat split; congruence.
  - repeat split; congruence.
Qed.

Lemma init_onsuccess_spec_witness :
  Hybrid.items (Hybrid.init_onsuccess cached_cart (Hybrid.initial None ∅)) = cached_cart
  /\ Hybrid.items (Hybrid.init_onsuccess []
                     (Hybrid.mount (Hybrid.initial (Some (Hybrid.Json cached_cart)) ∅)))
     = cached_cart.
Proof.
  split.
  - apply (init_onsuccess_spec cached_cart (Hybrid.initial None ∅)). discriminate.
  - apply (proj2 (proj2 (init_onsuccess_spec []
             (Hybrid.mount (Hybrid.initial (Some (Hybrid.Json cached_cart)) ∅))))).
    reflexivity.
Defined.

(** ** Messages from other tabs *)

Lemma stringify_differs (a b : Snapshot) :
  negb (String.eqb (JSON.stringify a) (JSON.stringify b)) = true <-> a <> b.
Proof.
  rewrite negb_true_iff. split.
  - intros E ->. rewrite String.eqb_refl in E. discriminate.
  - intros Hab. apply String.eqb_neq. intros E. apply Hab, stringify_inj, E.
Qed.

Lemma same_values_refl x : same_values x x = true.
Proof.
  unfold same_values. rewrite !Z.eqb_refl, String.eqb_refl. reflexivity.
Qed.

Lemma value_equal_refl (a : Snapshot) : value_equal a a = true.
Proof. induction a as [|x a IH]; simpl; [reflexivity|]. rewrite same_values_refl. exact IH. Qed.

Lemma same_values_eq x y :
  LineItem.fields x = [] -> LineItem.fields y = [] -> same_values x y = true -> x = y.
Proof.
  destruct x, y; unfold same_values; simpl. intros -> -> H.
  repeat (apply andb_true_iff in H as [H ?]).
  repeat match goal with
         | E : (_ =? _) = true |- _ => apply Z.eqb_eq in E
         | E : String.eqb _ _ = true |- _ => apply String.eqb_eq in E
         end.
  congruence.
Qed.

Lemma value_equal_eq (a b : Snapshot) :
  Forall (fun item => LineItem.fields item = []) a ->
  Forall (fun item => LineItem.fields item = []) b ->
  value_equal a b = true -> a = b.
Proof.
  intros Ha. revert b. induction Ha as [|x a Hx _ IH]; intros b Hb; destruct b as [|y b];
    simpl; try discriminate; [reflexivity|].
  inversion Hb; subst. intros Hv. apply andb_true_iff in Hv as [Hv1 Hv2].
  f_equal; [apply same_values_eq; assumption | apply IH; assumption].
Qed.


(** C6, as stated, fails: two snapshots that agree on [id], [name], [price]
    and [quantity] of every element, and differ in another product field,
    have different JSON texts, so the received one replaces the current
    one. *)
Lemma handleMessage_replaces_value_equal :
  let st := Hybrid.setItems [red_laptop] (Hybrid.initial None ∅) in
  let st' := Hybrid.handleMessage "CART_UPDATED" [blue_laptop] st in
  value_equal (Hybrid.items st) [blue_laptop] = true
  /\ Hybrid.items st' = [blue_laptop]
  /\ Hybrid.items st' <> Hybrid.items st
  /\ Hybrid.effects [Hybrid.Message "CART_UPDATED" [blue_laptop]] st
     = [Hybrid.SetItems [blue_laptop]].
Proof. vm_compute. repeat split; discriminate. Qed.

(** C6, amended. On a [CART_UPDATED] message the provider replaces its
    snapshot by the received one exactly when the two have different JSON
    texts, that is when they differ as lists of records, every field of
    every item compared; when they are equal the provider is left untouched. For snapshots whose items carry no field
    besides [id], [name], [price] and [quantity], that is the element-wise
    value equality on these four fields. A message of another type is
    ignored. *)
Theorem handleMessage_spec (received : Snapshot) (st : Hybrid.State) :
  (Hybrid.items st = received ->
     Hybrid.handleMessage "CART_UPDATED" received st = st)
  /\ (Hybrid.items st <> received ->
     Hybrid.handleMessage "CART_UPDATED" received st = Hybrid.setItems received st
     /\ Hybrid.items (Hybrid.handleMessage "CART_UPDATED" received st) = received
     /\ Hybrid.log (Hybrid.handleMessage "CART_UPDATED" received st)
        = Hybrid.log st ++ [Hybrid.SetItems received])
  /\ (Forall (fun item => LineItem.fields item = []) (Hybrid.items st) ->
      Forall (fun item => LineItem.fields item = []) received ->
      (value_equal (Hybrid.items st) received = true <-> Hybrid.items st = received))
  /\ (forall type, type <> "CART_UPDATED"%string ->
      Hybrid.handleMessage type received st = st).
Proof.
  unfold Hybrid.handleMessage. rewrite String.eqb_refl.
  split; [|split; [|split]].
  - intros E. destruct (negb _) eqn:D; [|reflexivity].
    apply stringify_differs in D. contradiction.
  - intros E. apply stringify_differs in E. rewrite E. repeat split.
  - intros Ha Hb. split.
    + apply value_equal_eq; assumption.
    + intros <-. apply value_equal_refl.
  - intros type Ht. apply String.eqb_neq in Ht. rewrite Ht. reflexivity.
Qed.

Lemma handleMessage_spec_witness :
  Hybrid.handleMessage "CART_UPDATED" cached_cart
    (Hybrid.setItems cached_cart (Hybrid.initial None ∅))
  = Hybrid.setItems cached_cart (Hybrid.initial None ∅)
  /\ Hybrid.items (Hybrid.handleMessage "CART_UPDATED" cached_cart (Hybrid.initial None ∅))
     = cached_cart.
Proof.
  split.
  - apply (proj1 (handleMessage_spec cached_cart
                    (Hybrid.setItems cached_cart (Hybrid.initial None ∅)))).
    reflexivity.
  - apply (proj1 (proj2 (handleMessage_spec cached_cart (Hybrid.initial None ∅)))).
    discriminate.
Defined.

(** ** Clearing the cart *)

Lemma clearCart_log st :
  Hybrid.log (Hybrid.clearCart st)
  = Hybrid.log st ++ [Hybrid.SetItems []; Hybrid.LocalStorageRemove]
      ++ (if Hybrid.dbRef st then [Hybrid.StoreClear] else [])
      ++ [Hybrid.PostMessage []].
Proof.
  unfold Hybrid.clearCart. simpl. destruct (Hybrid.dbRef st); simpl;
    rewrite <- !app_assoc; reflexivity.
Qed.

(** C8, as stated, fails when no database handle is stored in [dbRef], which
    is the case until [initDB] resolves and for good when it rejects. The
    page opens with a cached cart while the object store holds the same
    line, and the database does not open. [clearCart] then empties the
    snapshot and removes the [localStorage] slot, sends no request to the
    object store, and the store keeps the line; when the page is loaded again
    and the database opens, the cart is back. *)
Lemma clearCart_without_handle_keeps_store :
  let store : ObjectStore.t := ObjectStore.put (LineItem.mk 1 "Laptop" 999 1 []) ∅ in
  let st := Hybrid.init false
              (Hybrid.mount (Hybrid.initial (Some (Hybrid.Json cached_cart)) store)) in
  let st' := Hybrid.clearCart st in
  let reloaded :=
    Hybrid.init true
      (Hybrid.mount (Hybrid.initial (Hybrid.localStorage st') (Hybrid.cart st'))) in
  Hybrid.items st = [LineItem.mk 1 "Laptop" 999 1 []]
  /\ Hybrid.loading st = false
  /\ Hybrid.dbRef st = false
  /\ Hybrid.items st' = []
  /\ Hybrid.localStorage st' = None
  /\ Hybrid.cart st' = store
  /\ Hybrid.cart st' !! 1 = Some (LineItem.mk 1 "Laptop" 999 1 [])
  /\ Hybrid.durable_writes (Hybrid.effects [Hybrid.ClearCart] st) = []
  /\ Hybrid.items reloaded = [LineItem.mk 1 "Laptop" 999 1 []].
Proof. vm_compute. repeat split. Qed.

(** C8, amended. [clearCart] empties the snapshot and removes the
    [localStorage] slot in the call itself, and in the same call clears the
    object store if a database handle is stored in [dbRef]; if none is, the
    object store is left as it is and no request is sent to it. Either way
    the clock has not moved, no timer has been set or cancelled, the empty
    snapshot is broadcast last, and on an empty snapshot the snapshot stays
    empty. *)
Theorem clearCart_spec (st : Hybrid.State) :
  let st' := Hybrid.clearCart st in
  Hybrid.items st' = []
  /\ Hybrid.localStorage st' = None
  /\ Hybrid.cart st' = (if Hybrid.dbRef st then ∅ else Hybrid.cart st)
  /\ Hybrid.dbRef st' = Hybrid.dbRef st
  /\ Hybrid.clock st' = Hybrid.clock st
  /\ Hybrid.timers st' = Hybrid.timers st
  /\ Hybrid.syncTimeoutRef st' = Hybrid.syncTimeoutRef st
  /\ Hybrid.log st'
     = Hybrid.log st ++ [Hybrid.SetItems []; Hybrid.LocalStorageRemove]
         ++ (if Hybrid.dbRef st then [Hybrid.StoreClear] else [])
         ++ [Hybrid.PostMessage []]
  /\ (Hybrid.items st = [] -> Hybrid.items st' = Hybrid.items st).
Proof.
  cbv zeta. rewrite clearCart_log.
  unfold Hybrid.clearCart. simpl. destruct (Hybrid.dbRef st) eqn:Hdb; simpl.
  - repeat split; try reflexivity; congruence.
  - repeat split; try reflexivity; congruence.
Qed.

Lemma clearCart_spec_witness :
  Hybrid.cart (Hybrid.clearCart
                 (Hybrid.advance 1000 true
                    (Hybrid.addItem laptop (Hybrid.init true (Hybrid.initial None ∅))))) = ∅
  /\ Hybrid.cart (Hybrid.clearCart
                    (Hybrid.initial None (ObjectStore.put (LineItem.mk 1 "Laptop" 999 1 []) ∅)))
     = ObjectStore.put (LineItem.mk 1 "Laptop" 999 1 []) ∅.
Proof.
  split.
  - exact (proj1 (proj2 (proj2
             (clearCart_spec
                (Hybrid.advance 1000 true
                   (Hybrid.addItem laptop (Hybrid.init true (Hybrid.initial None ∅)))))))).
  - exact (proj1 (proj2 (proj2
             (clearCart_spec
                (Hybrid.initial None (ObjectStore.put (LineItem.mk 1 "Laptop" 999 1 []) ∅)))))).
Defined.

(** ** The debounce timer *)

Lemma sync_callback_frame s ok st :
  let st' := Hybrid.sync_callback s ok st in
  Hybrid.items st' = Hybrid.items st
  /\ Hybrid.loading st' = Hybrid.loading st
  /\ Hybrid.dbRef st' = Hybrid.dbRef st
  /\ Hybrid.syncTimeoutRef st' = Hybrid.syncTimeoutRef st
  /\ Hybrid.localStorage st' = Hybrid.localStorage st
  /\ Hybrid.timers st' = Hybrid.timers st
  /\ Hybrid.next_timer st' = Hybrid.next_timer st
  /\ Hybrid.clock st' = Hybrid.clock st.
Proof.
  unfold Hybrid.sync_callback.
  destruct (negb (Hybrid.dbRef st)); [repeat split|].
  destruct (if ok then _ else _); simpl; repeat split.
Qed.

Lemma advance_idle dt ok st :
  Forall (fun t => (Hybrid.clock st + dt < Hybrid.due t)%nat) (Hybrid.timers st) ->
  Hybrid.advance dt ok st = Hybrid.set_clock (Hybrid.clock st + dt) st.
Proof.
  intros H. unfold Hybrid.advance.
  assert (Hr : List.filter (fun t => (Hybrid.due t <=? Hybrid.clock st + dt)%nat)
                 (Hybrid.timers st) = []).
  { induction H as [|t ts Ht _ IH]; simpl; [reflexivity|].
    destruct (Nat.leb_spec (Hybrid.due t) (Hybrid.clock st + dt)); [lia|exact IH]. }
  assert (Hw : List.filter (fun t => negb (Hybrid.due t <=? Hybrid.clock st + dt)%nat)
                 (Hybrid.timers st) = Hybrid.timers st).
  { clear Hr. induction H as [|t ts Ht _ IH]; simpl; [reflexivity|].
    destruct (Nat.leb_spec (Hybrid.due t) (Hybrid.clock st + dt)); [lia|].
    simpl. rewrite IH. reflexivity. }
  rewrite Hr, Hw. simpl. destruct st; reflexivity.
Qed.

Lemma syncToIndexedDB_arms s st :
  Hybrid.timers_wf st ->
  let st' := Hybrid.syncToIndexedDB s st in
  Hybrid.timers st'
  = [Hybrid.mkTimer (Hybrid.next_timer st) (Hybrid.clock st + Hybrid.debounce) s]
  /\ Hybrid.syncTimeoutRef st' = Some (Hybrid.next_timer st)
  /\ Hybrid.items st' = Hybrid.items st
  /\ Hybrid.dbRef st' = Hybrid.dbRef st
  /\ Hybrid.clock st' = Hybrid.clock st
  /\ Hybrid.cart st' = Hybrid.cart st
  /\ Hybrid.localStorage st' = Hybrid.localStorage st
  /\ exists new, Hybrid.log st' = Hybrid.log st ++ new
                 /\ Hybrid.durable_writes new = []
                 /\ List.filter Hybrid.is_broadcast new = [].
Proof.
  unfold Hybrid.timers_wf, Hybrid.syncToIndexedDB. intros Hwf.
  destruct (Hybrid.syncTimeoutRef st) as [timer|] eqn:Href.
  - assert (Hcl : Hybrid.timers (Hybrid.clearTimeout timer st) = []).
    { simpl. destruct (Hybrid.timers st) as [|t [|t' ts]]; try contradiction; [reflexivity|].
      injection Hwf as ->. simpl. rewrite Pos.eqb_refl. reflexivity. }
    unfold Hybrid.setTimeout. rewrite Hcl. simpl. repeat split.
    eexists. rewrite <- app_assoc. split; [reflexivity|]. split; reflexivity.
  - destruct (Hybrid.timers st) as [|t [|t' ts]] eqn:Ht; try contradiction; try discriminate.
    unfold Hybrid.setTimeout. rewrite Ht. simpl. repeat split.
    eexists. split; [reflexivity|]. split; reflexivity.
Qed.

Lemma updateStorage_arms s st :
  Hybrid.timers_wf st ->
  let st' := Hybrid.setItems s (Hybrid.updateStorage s st) in
  Hybrid.items st' = s
  /\ Hybrid.timers st'
     = [Hybrid.mkTimer (Hybrid.next_timer st) (Hybrid.clock st + Hybrid.debounce) s]
  /\ Hybrid.syncTimeoutRef st' = Some (Hybrid.next_timer st)
  /\ Hybrid.dbRef st' = Hybrid.dbRef st
  /\ Hybrid.clock st' = Hybrid.clock st
  /\ Hybrid.cart st' = Hybrid.cart st
  /\ Hybrid.localStorage st' = Some (Hybrid.Json s)
  /\ exists new, Hybrid.log st' = Hybrid.log st ++ new
                 /\ Hybrid.durable_writes new = []
                 /\ List.filter Hybrid.is_broadcast new = [Hybrid.PostMessage s].
Proof.
  intros Hwf. unfold Hybrid.updateStorage.
  assert (Hwf' : Hybrid.timers_wf (Hybrid.localStorage_setItem s st)) by exact Hwf.
  destruct (syncToIndexedDB_arms s _ Hwf')
    as (Ht & Hr & Hi & Hd & Hc & Hs & Hl & new & Hlog & Hdw & Hbc).
  simpl in *. rewrite Ht, Hr, Hlog. repeat split; try assumption.
  exists ([Hybrid.LocalStorageSet s] ++ new ++ [Hybrid.PostMessage s; Hybrid.SetItems s]).
  split; [|split].
  - rewrite <- !app_assoc. reflexivity.
  - unfold Hybrid.durable_writes in *. rewrite !List.filter_app, Hdw. reflexivity.
  - rewrite !List.filter_app, Hbc. reflexivity.
Qed.

Lemma debounced_step a st :
  Hybrid.debounced a = true ->
  Hybrid.timers_wf st ->
  let st' := Hybrid.step st a in
  Hybrid.timers st'
  = [Hybrid.mkTimer (Hybrid.next_timer st) (Hybrid.clock st + Hybrid.debounce)
       (Hybrid.items st')]
  /\ Hybrid.syncTimeoutRef st' = Some (Hybrid.next_timer st)
  /\ Hybrid.dbRef st' = Hybrid.dbRef st
  /\ Hybrid.clock st' = Hybrid.clock st
  /\ Hybrid.cart st' = Hybrid.cart st
  /\ Hybrid.localStorage st' = Some (Hybrid.Json (Hybrid.items st'))
  /\ exists new, Hybrid.log st' = Hybrid.log st ++ new
                 /\ Hybrid.durable_writes new = []
                 /\ List.filter Hybrid.is_broadcast new
                    = [Hybrid.PostMessage (Hybrid.items st')].
Proof.
  intros Ha Hwf.
  assert (G : forall s,
    let st' := Hybrid.setItems s (Hybrid.updateStorage s st) in
    Hybrid.timers st'
    = [Hybrid.mkTimer (Hybrid.next_timer st) (Hybrid.clock st + Hybrid.debounce)
         (Hybrid.items st')]
    /\ Hybrid.syncTimeoutRef st' = Some (Hybrid.next_timer st)
    /\ Hybrid.dbRef st' = Hybrid.dbRef st
    /\ Hybrid.clock st' = Hybrid.clock st
    /\ Hybrid.cart st' = Hybrid.cart st
    /\ Hybrid.localStorage st' = Some (Hybrid.Json (Hybrid.items st'))
    /\ exists new, Hybrid.log st' = Hybrid.log st ++ new
                   /\ Hybrid.durable_writes new = []
                   /\ List.filter Hybrid.is_broadcast new
                      = [Hybrid.PostMessage (Hybrid.items st')]).
  { intros s. destruct (updateStorage_arms s st Hwf) as (Hi & H). cbv zeta in *.
    rewrite Hi. exact H. }
  destruct a; try discriminate Ha; unfold Hybrid.step.
  - apply G.
  - unfold Hybrid.updateQuantity. simpl in Ha.
    destruct (quantity <? 1); [discriminate|]. apply G.
  - apply G.
Qed.

Lemma fold_sync_callback_frame ok ready st :
  let st' := fold_left (fun s t => Hybrid.sync_callback (Hybrid.newItems t) ok s) ready st in
  Hybrid.items st' = Hybrid.items st
  /\ Hybrid.dbRef st' = Hybrid.dbRef st
  /\ Hybrid.syncTimeoutRef st' = Hybrid.syncTimeoutRef st
  /\ Hybrid.localStorage st' = Hybrid.localStorage st
  /\ Hybrid.timers st' = Hybrid.timers st
  /\ Hybrid.clock st' = Hybrid.clock st.
Proof.
  revert st. induction ready as [|t ready IH]; intros st; simpl; [repeat split|].
  destruct (IH (Hybrid.sync_callback (Hybrid.newItems t) ok st)) as (-> & -> & -> & -> & -> & ->).
  destruct (sync_callback_frame (Hybrid.newItems t) ok st)
    as (-> & _ & -> & -> & -> & -> & _ & ->).
  repeat split.
Qed.

Lemma filter_wf (f : Hybrid.Timer -> bool) (ts : list Hybrid.Timer) (ref : option positive) :
  match ts with
  | [] => True
  | [t] => ref = Some (Hybrid.timer_id t)
  | _ => False
  end ->
  match List.filter f ts with
  | [] => True
  | [t] => ref = Some (Hybrid.timer_id t)
  | _ => False
  end.
Proof.
  destruct ts as [|t [|t' ts]]; simpl; try contradiction; [trivial|].
  destruct (f t); trivial.
Qed.

(** Whatever happens to the provider, the timer table keeps its shape. *)
Lemma step_timers_wf a st : Hybrid.timers_wf st -> Hybrid.timers_wf (Hybrid.step st a).
Proof.
  intros Hwf.
  assert (D : forall b, Hybrid.debounced b = true -> Hybrid.timers_wf (Hybrid.step st b)).
  { intros b Hb. destruct (debounced_step b st Hb Hwf) as (Ht & Hr & _).
    unfold Hybrid.timers_wf. rewrite Ht, Hr. reflexivity. }
  destruct a; unfold Hybrid.step.
  - apply (D (Hybrid.AddItem product)). reflexivity.
  - destruct (quantity <? 1) eqn:Hq.
    + unfold Hybrid.updateQuantity. rewrite Hq. exact Hwf.
    + apply (D (Hybrid.UpdateQuantity productId quantity)). simpl. rewrite Hq. reflexivity.
  - apply (D (Hybrid.RemoveItem productId)). reflexivity.
  - unfold Hybrid.timers_wf, Hybrid.clearCart in *. simpl.
    destruct (Hybrid.dbRef st); exact Hwf.
  - unfold Hybrid.timers_wf, Hybrid.handleMessage in *.
    destruct (String.eqb _ _); [|exact Hwf].
    destruct (negb _); exact Hwf.
  - unfold Hybrid.timers_wf, Hybrid.mount in *.
    destruct (Hybrid.localStorage st) as [[s|]|]; exact Hwf.
  - unfold Hybrid.timers_wf, Hybrid.init_open in *. destruct ok; exact Hwf.
  - unfold Hybrid.timers_wf, Hybrid.init_onsuccess in *.
    destruct (0 <? _)%nat; exact Hwf.
  - unfold Hybrid.timers_wf, Hybrid.advance in *.
    destruct (fold_sync_callback_frame ok
                (List.filter (fun t => (Hybrid.due t <=? Hybrid.clock st + dt)%nat)
                   (Hybrid.timers st))
                (Hybrid.set_clock (Hybrid.clock st + dt)
                   (Hybrid.set_timers
                      (List.filter
                         (fun t => negb (Hybrid.due t <=? Hybrid.clock st + dt)%nat)
                         (Hybrid.timers st)) st)))
      as (_ & _ & Hr & _ & Ht & _).
    cbv zeta in *. rewrite Ht, Hr. simpl. apply filter_wf, Hwf.
Qed.

Lemma run_timers_wf acts st : Hybrid.timers_wf st -> Hybrid.timers_wf (Hybrid.run acts st).
Proof.
  revert st. induction acts as [|a acts IH]; intros st Hwf; [exact Hwf|].
  simpl. apply IH, step_timers_wf, Hwf.
Qed.

(** So it has that shape in every state of a provider that started fresh. *)
Lemma initial_timers_wf ls store acts :
  Hybrid.timers_wf (Hybrid.run acts (Hybrid.initial ls store)).
Proof. apply run_timers_wf. exact I. Qed.

Lemma timers_wf_pending st : Hybrid.timers_wf st -> (length (Hybrid.timers st) <= 1)%nat.
Proof.
  unfold Hybrid.timers_wf. destruct (Hybrid.timers st) as [|t [|t' ts]]; simpl; [lia|lia|tauto].
Qed.

Lemma advance_fires dt ok st t :
  Hybrid.timers st = [t] ->
  (Hybrid.due t <= Hybrid.clock st + dt)%nat ->
  Hybrid.advance dt ok st
  = Hybrid.sync_callback (Hybrid.newItems t) ok
      (Hybrid.set_clock (Hybrid.clock st + dt) (Hybrid.set_timers [] st)).
Proof.
  intros Ht Hdue. unfold Hybrid.advance. rewrite Ht. simpl.
  destruct (Nat.leb_spec (Hybrid.due t) (Hybrid.clock st + dt)); [reflexivity|lia].
Qed.

Lemma advance_items dt ok st : Hybrid.items (Hybrid.advance dt ok st) = Hybrid.items st.
Proof.
  unfold Hybrid.advance.
  match goal with
  | |- Hybrid.items (fold_left _ ?ready ?st0) = _ =>
      destruct (fold_sync_callback_frame ok ready st0) as (H & _)
  end.
  cbv zeta in H. rewrite H. reflexivity.
Qed.

Section Burst.
Variable ok : bool.

Lemma armed_after_mutation a st :
  Hybrid.debounced a = true -> Hybrid.timers_wf st -> Hybrid.dbRef st = true ->
  Hybrid.armed (Hybrid.step st a) /\ Hybrid.quiet st (Hybrid.step st a).
Proof.
  intros Ha Hwf Hdb.
  destruct (debounced_step a st Ha Hwf)
    as (Ht & Hr & Hd & Hc & Hs & _ & new & Hlog & Hdw & _).
  cbv zeta in *. split.
  - exists (Hybrid.next_timer st). rewrite Hc, Hd. auto.
  - split; [exact Hs|]. exists new. auto.
Qed.

Lemma armed_next gap a st :
  Hybrid.armed st -> (gap < Hybrid.debounce)%nat -> Hybrid.debounced a = true ->
  let st' := Hybrid.step (Hybrid.step st (Hybrid.Advance gap true)) a in
  Hybrid.armed st' /\ Hybrid.quiet st st'.
Proof.
  intros (n & Ht & Hr & Hdb) Hgap Ha. simpl Hybrid.step at 2.
  rewrite advance_idle by (rewrite Ht; repeat constructor; simpl; lia).
  destruct (armed_after_mutation a (Hybrid.set_clock (Hybrid.clock st + gap) st))
    as (Harmed & Hquiet); [exact Ha| |exact Hdb|].
  - unfold Hybrid.timers_wf. simpl. rewrite Ht. exact Hr.
  - split; [exact Harmed|exact Hquiet].
Qed.

Lemma quiet_trans st1 st2 st3 :
  Hybrid.quiet st1 st2 -> Hybrid.quiet st2 st3 -> Hybrid.quiet st1 st3.
Proof.
  intros (C1 & n1 & H1 & D1) (C2 & n2 & H2 & D2). split; [congruence|].
  exists (n1 ++ n2). split.
  - rewrite H2, H1, app_assoc. reflexivity.
  - unfold Hybrid.durable_writes in *. rewrite List.filter_app, D1, D2. reflexivity.
Qed.

Lemma armed_rest (rest : list (nat * Hybrid.Action)) st :
  Hybrid.armed st ->
  Forall (fun gm => (gm.1 < Hybrid.debounce)%nat /\ Hybrid.debounced gm.2 = true) rest ->
  let st' := Hybrid.run (flat_map (fun gm => [Hybrid.Advance gm.1 true; gm.2]) rest) st in
  Hybrid.armed st' /\ Hybrid.quiet st st'.
Proof.
  intros Harmed Hrest. revert st Harmed.
  induction Hrest as [|[gap a] rest [Hgap Ha] _ IH]; intros st Harmed.
  - split; [exact Harmed|]. split; [reflexivity|]. exists []. rewrite app_nil_r. auto.
  - simpl in Hgap, Ha.
    destruct (armed_next gap a st Harmed Hgap Ha) as (Harmed' & Hq).
    destruct (IH _ Harmed') as (Harmed'' & Hq').
    split; [exact Harmed''|]. eapply quiet_trans; [exact Hq|exact Hq'].
Qed.

(** A burst of debounced mutations writes nothing to the object store and
    leaves one timer, which holds the snapshot of the last mutation. *)
Lemma burst_armed st first rest :
  Hybrid.timers_wf st -> Hybrid.dbRef st = true ->
  Hybrid.debounced first = true ->
  Forall (fun gm => (gm.1 < Hybrid.debounce)%nat /\ Hybrid.debounced gm.2 = true) rest ->
  let st1 := Hybrid.run (Hybrid.burst first rest) st in
  Hybrid.armed st1 /\ Hybrid.quiet st st1.
Proof.
  intros Hwf Hdb Hfirst Hrest.
  destruct (armed_after_mutation first st Hfirst Hwf Hdb) as (Ha1 & Hq1).
  destruct (armed_rest rest _ Ha1 Hrest) as (Ha2 & Hq2).
  split; [exact Ha2|]. exact (quiet_trans _ _ _ Hq1 Hq2).
Qed.

(** When the delay has passed, the timer of an armed provider fires. *)
Lemma armed_settles settle st :
  Hybrid.armed st -> (Hybrid.debounce <= settle)%nat ->
  Hybrid.advance settle ok st
  = Hybrid.sync_callback (Hybrid.items st) ok
      (Hybrid.set_clock (Hybrid.clock st + settle) (Hybrid.set_timers [] st)).
Proof.
  intros (n & Ht & Hr & Hdb) Hsettle.
  rewrite (advance_fires settle ok st _ Ht) by (simpl; lia). reflexivity.
Qed.
End Burst.

(** ** The object store after a synchronisation *)

Lemma add_each_fresh (s : Snapshot) (store : gmap Z LineItem.t) :
  NoDup (ids s) ->
  (forall item, In item s -> store !! LineItem.id item = None) ->
  exists store',
    ObjectStore.add_each s store = Some store'
    /\ (forall item, In item s -> store' !! LineItem.id item = Some item)
    /\ (forall k, ~ In k (ids s) -> store' !! k = store !! k).
Proof.
  revert store. induction s as [|x s IH]; intros store Hnd Hfresh; simpl.
  - exists store. split; [reflexivity|]. split; [intros item []|reflexivity].
  - apply NoDup_cons in Hnd as [Hx Hnd].
    unfold ObjectStore.add. rewrite (Hfresh x) by (left; reflexivity).
    destruct (IH (<[LineItem.id x := x]> store) Hnd) as (store' & Hadd & Hin & Hout).
    { intros item Hitem. rewrite lookup_insert_ne.
      - apply Hfresh. right. exact Hitem.
      - intros E. apply Hx. rewrite E. apply list_elem_of_In, in_map, Hitem. }
    exists store'. split; [exact Hadd|]. split.
    + intros item [<-|Hitem]; [|apply Hin, Hitem].
      rewrite Hout by (intros Hk; apply Hx, list_elem_of_In, Hk).
      apply lookup_insert_eq.
    + intros k Hk. rewrite Hout by (intros Hk'; apply Hk; right; exact Hk').
      apply lookup_insert_ne. intros E. apply Hk. left. exact E.
Qed.

Lemma ids_map_same_id (f : LineItem.t -> LineItem.t) (s : Snapshot) :
  (forall item, LineItem.id (f item) = LineItem.id item) -> ids (map f s) = ids s.
Proof.
  intros Hf. unfold ids. rewrite List.map_map. apply List.map_ext, Hf.
Qed.

Lemma addItem_NoDup product (s : Snapshot) :
  NoDup (ids s) -> NoDup (ids (addItem_newItems product s)).
Proof.
  intros Hnd. unfold addItem_newItems. destruct (find_item _ _) eqn:E.
  - rewrite ids_map_same_id; [exact Hnd|].
    intros item. destruct (LineItem.id item =? Product.id product); reflexivity.
  - apply find_item_None in E. unfold ids. rewrite List.map_app. simpl.
    apply NoDup_app. split; [exact Hnd|]. split; [|apply NoDup_singleton].
    intros k Hk Hk'. apply list_elem_of_In in Hk, Hk'.
    destruct Hk' as [<-|[]]. apply List.in_map_iff in Hk as (item & Hid & Hitem).
    rewrite List.Forall_forall in E. exact (E item Hitem Hid).
Qed.

Lemma updateQuantity_NoDup productId quantity (s : Snapshot) :
  NoDup (ids s) -> NoDup (ids (Context.updateQuantity productId quantity s)).
Proof.
  intros Hnd. unfold Context.updateQuantity, updateQuantity_newItems.
  destruct (quantity <? 1); [exact Hnd|].
  rewrite ids_map_same_id; [exact Hnd|].
  intros item. destruct (LineItem.id item =? productId); reflexivity.
Qed.

Lemma removeItem_NoDup productId (s : Snapshot) :
  NoDup (ids s) -> NoDup (ids (removeItem_newItems productId s)).
Proof.
  unfold removeItem_newItems, ids. induction s as [|x s IH]; simpl; intros Hnd; [exact Hnd|].
  apply NoDup_cons in Hnd as [Hx Hnd].
  destruct (negb (LineItem.id x =? productId)); simpl; [|exact (IH Hnd)].
  apply NoDup_cons. split; [|exact (IH Hnd)].
  intros Hin. apply Hx. apply list_elem_of_In in Hin. apply list_elem_of_In.
  apply List.in_map_iff in Hin as (y & Hy & Hin).
  apply List.filter_In in Hin as [Hin _].
  rewrite <- Hy. apply in_map, Hin.
Qed.

(** No two items of a reachable snapshot share an id. *)
Lemma reachable_NoDup st : Hybrid.reachable st -> NoDup (ids (Hybrid.items st)).
Proof.
  induction 1 as [st E|st a _ IH Ha].
  - rewrite E. constructor.
  - destruct a; try discriminate Ha; unfold Hybrid.step.
    + rewrite hybrid_items_addItem. apply addItem_NoDup, IH.
    + rewrite hybrid_items_updateQuantity. apply updateQuantity_NoDup, IH.
    + rewrite hybrid_items_removeItem. apply removeItem_NoDup, IH.
    + rewrite hybrid_items_clearCart. constructor.
Qed.

Lemma addItem_nonempty product (s : Snapshot) : addItem_newItems product s <> [].
Proof.
  unfold addItem_newItems. destruct (find_item _ _) eqn:E.
  - destruct s; [discriminate E|discriminate].
  - destruct s; discriminate.
Qed.

Lemma sync_callback_commits (s : Snapshot) st :
  Hybrid.dbRef st = true -> NoDup (ids s) ->
  exists store,
    Hybrid.sync_callback s true st
    = Hybrid.emit (Hybrid.StoreSync s true) (Hybrid.set_cart store st)
    /\ (forall item, In item s -> store !! LineItem.id item = Some item)
    /\ (forall k, ~ In k (ids s) -> store !! k = None).
Proof.
  intros Hdb Hnd. unfold Hybrid.sync_callback. rewrite Hdb. simpl.
  destruct (add_each_fresh s (ObjectStore.clear (Hybrid.cart st)) Hnd)
    as (store & -> & Hin & Hout).
  { intros item _. apply lookup_empty. }
  exists store. split; [reflexivity|]. split; [exact Hin|].
  intros k Hk. rewrite (Hout k Hk). apply lookup_empty.
Qed.

Lemma clearCart_open st :
  Hybrid.dbRef st = true ->
  Hybrid.clearCart st
  = Hybrid.mkState [] (Hybrid.loading st) true (Hybrid.syncTimeoutRef st) None ∅
      (Hybrid.timers st) (Hybrid.next_timer st) (Hybrid.clock st)
      (Hybrid.log st ++ [Hybrid.SetItems []; Hybrid.LocalStorageRemove;
                         Hybrid.StoreClear; Hybrid.PostMessage []]).
Proof.
  intros Hdb. unfold Hybrid.clearCart. simpl. rewrite Hdb.
  unfold Hybrid.notifyOtherTabs, Hybrid.emit. simpl.
  rewrite <- !app_assoc, Hdb. reflexivity.
Qed.

(** C10. [clearCart] does not cancel the debounce timer. With the database
    open, an [addItem] followed within the debounce delay by [clearCart]
    leaves the timer of the [addItem] pending; when it fires, after the
    clear, it writes the snapshot from before the clear into the object
    store. At the end the snapshot is empty, the [localStorage] slot is
    gone, and the object store holds exactly the items of the pre-clear
    snapshot. *)
Theorem clearCart_keeps_pending_sync (st : Hybrid.State) (product : Product.t)
    (gap settle : nat) :
  Hybrid.timers_wf st ->
  Hybrid.dbRef st = true ->
  NoDup (ids (Hybrid.items st)) ->
  (gap < Hybrid.debounce)%nat ->
  (Hybrid.debounce <= settle)%nat ->
  let pre := addItem_newItems product (Hybrid.items st) in
  let acts := [Hybrid.AddItem product; Hybrid.Advance gap true;
               Hybrid.ClearCart; Hybrid.Advance settle true] in
  let st' := Hybrid.run acts st in
  Hybrid.items st' = []
  /\ Hybrid.localStorage st' = None
  /\ Hybrid.cart st' <> ∅
  /\ (forall item, In item pre -> Hybrid.cart st' !! LineItem.id item = Some item)
  /\ (forall k, ~ In k (ids pre) -> Hybrid.cart st' !! k = None)
  /\ Hybrid.durable_writes (Hybrid.effects acts st)
     = [Hybrid.StoreClear; Hybrid.StoreSync pre true].
Proof.
  intros Hwf Hdb Hnd Hgap Hsettle pre acts st'.
  destruct (debounced_step (Hybrid.AddItem product) st eq_refl Hwf)
    as (Ht & Hr & Hd & Hc & _ & _ & new & Hlog & Hdw & _).
  cbv zeta in *. change (Hybrid.step st (Hybrid.AddItem product))
    with (Hybrid.addItem product st) in *.
  rewrite hybrid_items_addItem in Ht. fold pre in Ht.
  assert (E : st' = Hybrid.advance settle true
                      (Hybrid.clearCart
                         (Hybrid.advance gap true (Hybrid.addItem product st))))
    by reflexivity.
  remember (Hybrid.addItem product st) as st1 eqn:Est1.
  rewrite (advance_idle gap true st1) in E
    by (rewrite Ht; repeat constructor; simpl; lia).
  rewrite clearCart_open in E by (simpl; congruence).
  rewrite (advance_fires settle true _
             (Hybrid.mkTimer (Hybrid.next_timer st) (Hybrid.clock st + Hybrid.debounce) pre))
    in E by (simpl; (exact Ht || lia)).
  cbn [Hybrid.newItems] in E.
  match type of E with
  | _ = Hybrid.sync_callback _ _ ?s =>
      destruct (sync_callback_commits pre s) as (store & E5 & Hin & Hout);
        [reflexivity|apply addItem_NoDup, Hnd|]
  end.
  simpl in E, E5. rewrite E5 in E. clear E5.
  split; [rewrite E; reflexivity|]. split; [rewrite E; reflexivity|].
  split; [|split; [rewrite E; exact Hin|split; [rewrite E; exact Hout|]]].
  - rewrite E. simpl. intros Hempty. destruct pre as [|item pre'] eqn:Hpre.
    + exact (addItem_nonempty product (Hybrid.items st) Hpre).
    + specialize (Hin item (or_introl eq_refl)). rewrite Hempty, lookup_empty in Hin.
      discriminate.
  - unfold Hybrid.effects. fold st'. rewrite E. simpl.
    rewrite Hlog, <- !app_assoc, drop_app_length.
    unfold Hybrid.durable_writes in *. rewrite !List.filter_app, Hdw. reflexivity.
Qed.

Lemma clearCart_keeps_pending_sync_witness :
  let st' := Hybrid.run [Hybrid.AddItem laptop; Hybrid.Advance 400 true;
                         Hybrid.ClearCart; Hybrid.Advance 1000 true]
                        (Hybrid.init true (Hybrid.initial None ∅)) in
  Hybrid.items st' = []
  /\ Hybrid.localStorage st' = None
  /\ Hybrid.cart st' <> ∅.
Proof.
  destruct (clearCart_keeps_pending_sync (Hybrid.init true (Hybrid.initial None ∅))
              laptop 400 1000) as (H1 & H2 & H3 & _).
  - vm_compute. trivial.
  - reflexivity.
  - constructor.
  - unfold Hybrid.debounce. lia.
  - unfold Hybrid.debounce. lia.
  - repeat split; assumption.
Defined.

(** ** Bursts of mutations *)

Lemma find_item_elem_inv k (s : Snapshot) x :
  find_item k s = Some x -> x ∈ s /\ LineItem.id x = k.
Proof.
  intros H. destruct (find_item_Some k s x H) as (before & after & -> & Hid & _).
  split; [|exact Hid]. apply elem_of_app. right. apply elem_of_cons. left. reflexivity.
Qed.

Lemma committed_store_agrees (s : Snapshot) (store : gmap Z LineItem.t) :
  (forall item, In item s -> store !! LineItem.id item = Some item) ->
  (forall k, ~ In k (ids s) -> store !! k = None) ->
  forall k, store !! k = find_item k s.
Proof.
  intros Hin Hout k. destruct (find_item k s) as [x|] eqn:F.
  - apply find_item_elem_inv in F as [Hx <-]. apply Hin, list_elem_of_In, Hx.
  - apply Hout. intros Hk. apply List.in_map_iff in Hk as (x & Hid & Hx).
    apply find_item_None in F. rewrite List.Forall_forall in F. exact (F x Hx Hid).
Qed.

Lemma add_each_Some (s : Snapshot) (store store' : gmap Z LineItem.t) :
  ObjectStore.add_each s store = Some store' ->
  NoDup (ids s) /\ forall x, In x s -> store !! LineItem.id x = None.
Proof.
  revert store. induction s as [|y s IH]; simpl; intros store H.
  - split; [constructor|intros x []].
  - unfold ObjectStore.add in H.
    destruct (store !! LineItem.id y) eqn:Hy; [discriminate|].
    destruct (IH _ H) as (Hnd & Hfree).
    assert (Hne : forall x, In x s -> LineItem.id x <> LineItem.id y).
    { intros x Hx E. specialize (Hfree x Hx). rewrite E, lookup_insert_eq in Hfree.
      discriminate. }
    split.
    + apply NoDup_cons. split; [|exact Hnd].
      intros Hin. apply list_elem_of_In, List.in_map_iff in Hin as (x & Hid & Hx).
      exact (Hne x Hx Hid).
    + intros x [<-|Hx]; [exact Hy|].
      specialize (Hfree x Hx). rewrite lookup_insert_ne in Hfree; [exact Hfree|].
      intros E. exact (Hne x Hx (eq_sym E)).
Qed.

Lemma sync_callback_rejected (s : Snapshot) (ok : bool) st :
  Hybrid.dbRef st = true ->
  ok = false \/ ~ NoDup (ids s) ->
  Hybrid.sync_callback s ok st
  = Hybrid.emit Hybrid.ConsoleError (Hybrid.emit (Hybrid.StoreSync s false) st).
Proof.
  intros Hdb Hfail. unfold Hybrid.sync_callback. rewrite Hdb. simpl.
  destruct ok; [|reflexivity].
  destruct Hfail as [Hf|Hdup]; [discriminate|].
  destruct (ObjectStore.add_each s (ObjectStore.clear (Hybrid.cart st))) eqn:A;
    [|reflexivity].
  exfalso. apply Hdup. exact (proj1 (add_each_Some _ _ _ A)).
Qed.

(** C3, as stated, fails when the burst contains [clearCart]: the clear is
    written to the object store at once, the timer set by the mutation before
    it still fires, and the write it performs carries the snapshot from
    before the clear, not the final (empty) one. *)
Lemma burst_with_clearCart_writes_twice :
  let st := Hybrid.init true (Hybrid.initial None ∅) in
  let acts := [Hybrid.AddItem laptop; Hybrid.Advance 500 true; Hybrid.ClearCart] in
  Hybrid.items (Hybrid.run acts st) = []
  /\ Hybrid.durable_writes (Hybrid.effects (acts ++ [Hybrid.Advance 1000 true]) st)
     = [Hybrid.StoreClear; Hybrid.StoreSync [LineItem.mk 1 "Laptop" 999 1 []] true]
  /\ Hybrid.cart (Hybrid.run (acts ++ [Hybrid.Advance 1000 true]) st) !! 1
     = Some (LineItem.mk 1 "Laptop" 999 1 [])
  /\ forall committed,
       Hybrid.durable_writes (Hybrid.effects (acts ++ [Hybrid.Advance 1000 true]) st)
       <> [Hybrid.StoreSync (Hybrid.items (Hybrid.run acts st)) committed].
Proof. vm_compute. repeat split. intros committed. discriminate. Qed.

(** C3, amended. With the database open, a burst of one or more mutations
    that go through the debounce timer ([addItem], [removeItem],
    [updateQuantity] with a quantity of at least 1), each less than the
    debounce delay after the one before it, writes nothing to the object
    store while it lasts. When the delay has passed after the last of them,
    exactly one write is performed, and it carries the snapshot produced by
    the last mutation. If the requests of that write succeed and no two items
    of the snapshot share an id, the object store then holds exactly the
    items of that snapshot, each under its id; if not, the write is recorded
    as failed and the object store holds what it held before the burst. The
    snapshot itself is the one of the last mutation either way, and at every
    point of the run at most one timer is pending. *)
Theorem debounce_batches (st : Hybrid.State) (first : Hybrid.Action)
    (rest : list (nat * Hybrid.Action)) (settle : nat) (ok : bool) :
  Hybrid.timers_wf st ->
  Hybrid.dbRef st = true ->
  Hybrid.debounced first = true ->
  Forall (fun gm => (gm.1 < Hybrid.debounce)%nat /\ Hybrid.debounced gm.2 = true) rest ->
  (Hybrid.debounce <= settle)%nat ->
  let mutations := Hybrid.burst first rest in
  let acts := mutations ++ [Hybrid.Advance settle ok] in
  let final := Hybrid.items (Hybrid.run mutations st) in
  let committed := ok && bool_decide (NoDup (ids final)) in
  Hybrid.durable_writes (Hybrid.effects mutations st) = []
  /\ Hybrid.cart (Hybrid.run mutations st) = Hybrid.cart st
  /\ Hybrid.durable_writes (Hybrid.effects acts st) = [Hybrid.StoreSync final committed]
  /\ (committed = true ->
      forall k, Hybrid.cart (Hybrid.run acts st) !! k = find_item k final)
  /\ (committed = false -> Hybrid.cart (Hybrid.run acts st) = Hybrid.cart st)
  /\ Hybrid.items (Hybrid.run acts st) = final
  /\ forall k, (length (Hybrid.timers (Hybrid.run (take k acts) st)) <= 1)%nat.
Proof.
  intros Hwf Hdb Hfirst Hrest Hsettle mutations acts final committed.
  destruct (burst_armed st first rest Hwf Hdb Hfirst Hrest)
    as (Harmed & Hcart & new & Hlog & Hdw).
  fold mutations in Harmed, Hcart, Hlog.
  assert (E : Hybrid.run acts st
              = Hybrid.sync_callback final ok
                  (Hybrid.set_clock (Hybrid.clock (Hybrid.run mutations st) + settle)
                     (Hybrid.set_timers [] (Hybrid.run mutations st)))).
  { unfold acts. rewrite hybrid_run_app.
    apply (armed_settles ok settle _ Harmed Hsettle). }
  assert (Hdb1 : Hybrid.dbRef
                   (Hybrid.set_clock (Hybrid.clock (Hybrid.run mutations st) + settle)
                      (Hybrid.set_timers [] (Hybrid.run mutations st))) = true).
  { destruct Harmed as (n & _ & _ & H). exact H. }
  split; [unfold Hybrid.effects; rewrite Hlog, drop_app_length; exact Hdw|].
  split; [exact Hcart|].
  destruct (decide (ok = true /\ NoDup (ids final))) as [[-> Hnd]|Hfail].
  - assert (Hc : committed = true).
    { apply andb_true_iff. split; [reflexivity|apply bool_decide_eq_true_2, Hnd]. }
    destruct (sync_callback_commits final _ Hdb1 Hnd) as (store & E' & Hin & Hout).
    rewrite E' in E. rewrite Hc.
    split; [|split; [|split; [discriminate|split]]].
    + unfold Hybrid.effects. rewrite E.
      cbn [Hybrid.log Hybrid.cart Hybrid.items Hybrid.emit Hybrid.set_cart Hybrid.set_clock Hybrid.set_timers].
      rewrite Hlog, <- app_assoc, drop_app_length.
      unfold Hybrid.durable_writes in *. rewrite List.filter_app, Hdw. reflexivity.
    + intros _. rewrite E. cbn [Hybrid.log Hybrid.cart Hybrid.items Hybrid.emit Hybrid.set_cart Hybrid.set_clock Hybrid.set_timers]. apply committed_store_agrees; assumption.
    + rewrite E. reflexivity.
    + intros k. apply timers_wf_pending, run_timers_wf, Hwf.
  - assert (Hc : committed = false).
    { unfold committed. destruct ok; [|reflexivity]. simpl.
      apply bool_decide_eq_false_2. intros Hnd. apply Hfail. split; [reflexivity|exact Hnd]. }
    assert (Hfail' : ok = false \/ ~ NoDup (ids final)).
    { destruct ok; [right|left; reflexivity].
      intros Hnd. apply Hfail. split; [reflexivity|exact Hnd]. }
    rewrite (sync_callback_rejected final ok _ Hdb1 Hfail') in E. rewrite Hc.
    split; [|split; [discriminate|split; [|split]]].
    + unfold Hybrid.effects. rewrite E.
      cbn [Hybrid.log Hybrid.cart Hybrid.items Hybrid.emit Hybrid.set_cart Hybrid.set_clock Hybrid.set_timers].
      rewrite Hlog, <- !app_assoc, drop_app_length.
      unfold Hybrid.durable_writes in *. rewrite List.filter_app, Hdw. reflexivity.
    + intros _. rewrite E. cbn [Hybrid.log Hybrid.cart Hybrid.items Hybrid.emit Hybrid.set_cart Hybrid.set_clock Hybrid.set_timers]. exact Hcart.
    + rewrite E. reflexivity.
    + intros k. apply timers_wf_pending, run_timers_wf, Hwf.
Qed.

Lemma debounce_batches_witness :
  let acts := Hybrid.burst (Hybrid.AddItem laptop)
                [(300%nat, Hybrid.AddItem laptop); (999%nat, Hybrid.UpdateQuantity 1 7);
                 (10%nat, Hybrid.AddItem smartphone)]
              ++ [Hybrid.Advance 1000 true] in
  let st := Hybrid.init true (Hybrid.initial None ∅) in
  Hybrid.durable_writes (Hybrid.effects acts st)
  = [Hybrid.StoreSync [LineItem.mk 1 "Laptop" 999 7 []; LineItem.mk 2 "Smartphone" 699 1 []]
       true]
  /\ Hybrid.cart (Hybrid.run acts st) !! 2 = Some (LineItem.mk 2 "Smartphone" 699 1 []).
Proof.
  destruct (debounce_batches (Hybrid.init true (Hybrid.initial None ∅))
              (Hybrid.AddItem laptop)
              [(300%nat, Hybrid.AddItem laptop); (999%nat, Hybrid.UpdateQuantity 1 7);
               (10%nat, Hybrid.AddItem smartphone)] 1000 true)
    as (_ & _ & Hw & Hc & _).
  - vm_compute. trivial.
  - reflexivity.
  - reflexivity.
  - repeat constructor; simpl; unfold Hybrid.debounce; lia.
  - unfold Hybrid.debounce. lia.
  - split; [exact Hw|]. rewrite (Hc eq_refl 2). reflexivity.
Defined.

(** ** Notifications *)

Ltac log_tail :=
  repeat rewrite <- app_assoc;
  first [rewrite drop_app_length | rewrite drop_all].

Lemma indexeddb_effects (m : IndexedDB.Mutation) (ok : bool) (st : IndexedDB.State) :
  IndexedDB.notified_after_success false (IndexedDB.effects m ok st) = true
  /\ (In IndexedDB.PostMessage (IndexedDB.effects m ok st) -> ok = true).
Proof.
  unfold IndexedDB.effects.
  destruct m as [product|productId quantity|productId|]; simpl.
  - unfold IndexedDB.addItem. destruct (IndexedDB.db st); simpl;
      [|log_tail; split; [reflexivity|intros []]].
    destruct ok; simpl; log_tail; simpl; split; try reflexivity; intuition discriminate.
  - unfold IndexedDB.updateQuantity. destruct (IndexedDB.db st); simpl;
      [|log_tail; split; [reflexivity|intros []]].
    destruct (quantity <? 1); [log_tail; split; [reflexivity|intros []]|].
    destruct (find_item productId (IndexedDB.items st));
      [|log_tail; split; [reflexivity|intros []]].
    destruct ok; simpl; log_tail; simpl; split; try reflexivity; intuition discriminate.
  - unfold IndexedDB.removeItem. destruct (IndexedDB.db st); simpl;
      [|log_tail; split; [reflexivity|intros []]].
    destruct ok; [simpl; log_tail; simpl; split; [reflexivity|intuition discriminate]|].
    destruct (find_item productId (IndexedDB.items st));
      simpl; log_tail; simpl; split; try reflexivity; intuition discriminate.
  - unfold IndexedDB.clearCart. destruct (IndexedDB.db st); simpl;
      [|log_tail; split; [reflexivity|intros []]].
    destruct ok; simpl; log_tail; simpl; split; try reflexivity; intuition discriminate.
Qed.

Lemma sync_callback_no_broadcast s ok st :
  exists new, Hybrid.log (Hybrid.sync_callback s ok st) = Hybrid.log st ++ new
              /\ List.filter Hybrid.is_broadcast new = [].
Proof.
  unfold Hybrid.sync_callback. destruct (negb (Hybrid.dbRef st)).
  - exists []. rewrite app_nil_r. auto.
  - destruct (if ok then _ else _); simpl.
    + eexists. split; reflexivity.
    + eexists. rewrite <- app_assoc. split; reflexivity.
Qed.

Lemma advance_no_broadcast dt ok st :
  exists new, Hybrid.log (Hybrid.advance dt ok st) = Hybrid.log st ++ new
              /\ List.filter Hybrid.is_broadcast new = [].
Proof.
  unfold Hybrid.advance.
  change (Hybrid.log st)
    with (Hybrid.log (Hybrid.set_clock (Hybrid.clock st + dt)
            (Hybrid.set_timers
               (List.filter (fun t => negb (Hybrid.due t <=? Hybrid.clock st + dt)%nat)
                  (Hybrid.timers st)) st))).
  generalize (Hybrid.set_clock (Hybrid.clock st + dt)
            (Hybrid.set_timers
               (List.filter (fun t => negb (Hybrid.due t <=? Hybrid.clock st + dt)%nat)
                  (Hybrid.timers st)) st)).
  generalize (List.filter (fun t => (Hybrid.due t <=? Hybrid.clock st + dt)%nat)
                (Hybrid.timers st)).
  intros ready. induction ready as [|t ready IH]; intros st0; simpl.
  - exists []. rewrite app_nil_r. auto.
  - destruct (IH (Hybrid.sync_callback (Hybrid.newItems t) ok st0)) as (n2 & -> & F2).
    destruct (sync_callback_no_broadcast (Hybrid.newItems t) ok st0) as (n1 & -> & F1).
    exists (n1 ++ n2). rewrite app_assoc, List.filter_app, F1, F2. auto.
Qed.

(** What one call of a debounced mutation logs, in order. *)
Lemma updateStorage_log s st :
  Hybrid.log (Hybrid.setItems s (Hybrid.updateStorage s st))
  = Hybrid.log st ++ [Hybrid.LocalStorageSet s]
      ++ match Hybrid.syncTimeoutRef st with
         | Some timer => [Hybrid.ClearTimeout timer]
         | None => []
         end
      ++ [Hybrid.SetTimeout (Hybrid.next_timer st) (Hybrid.clock st + Hybrid.debounce);
          Hybrid.PostMessage s; Hybrid.SetItems s].
Proof.
  unfold Hybrid.updateStorage, Hybrid.syncToIndexedDB. simpl.
  destruct (Hybrid.syncTimeoutRef st); simpl; rewrite <- !app_assoc; reflexivity.
Qed.

Lemma debounced_log a st :
  Hybrid.debounced a = true ->
  Hybrid.log (Hybrid.step st a)
  = Hybrid.log st ++ [Hybrid.LocalStorageSet (Hybrid.items (Hybrid.step st a))]
      ++ match Hybrid.syncTimeoutRef st with
         | Some timer => [Hybrid.ClearTimeout timer]
         | None => []
         end
      ++ [Hybrid.SetTimeout (Hybrid.next_timer st) (Hybrid.clock st + Hybrid.debounce);
          Hybrid.PostMessage (Hybrid.items (Hybrid.step st a));
          Hybrid.SetItems (Hybrid.items (Hybrid.step st a))].
Proof.
  intros Ha. destruct a; try discriminate Ha; unfold Hybrid.step.
  - apply updateStorage_log.
  - unfold Hybrid.updateQuantity. simpl in Ha.
    destruct (quantity <? 1); [discriminate|]. apply updateStorage_log.
  - apply updateStorage_log.
Qed.

(** C2, as stated, fails in the hybrid variant: [addItem] broadcasts the new
    snapshot in the call itself, a full debounce delay before the object
    store is written, and the broadcast stands when that write fails. *)
Lemma hybrid_broadcasts_before_sync :
  let st := Hybrid.init true (Hybrid.initial None ∅) in
  let s := [LineItem.mk 1 "Laptop" 999 1 []] in
  Hybrid.effects [Hybrid.AddItem laptop; Hybrid.Advance 1000 false] st
  = [Hybrid.LocalStorageSet s; Hybrid.SetTimeout 1%positive 1000; Hybrid.PostMessage s;
     Hybrid.SetItems s; Hybrid.StoreSync s false; Hybrid.ConsoleError]
  /\ Hybrid.published_after_sync []
       (Hybrid.effects [Hybrid.AddItem laptop; Hybrid.Advance 1000 false] st) = false
  /\ Hybrid.published_after_sync []
       (Hybrid.effects [Hybrid.AddItem laptop; Hybrid.Advance 1000 true] st) = false.
Proof. vm_compute. repeat split. Qed.

(** C2, amended. In the IndexedDB variant a mutation notifies the other
    tabs only directly after its request on the object store has succeeded,
    and not at all when the request fails; the message carries no snapshot.
    In the hybrid variant a call of [addItem], [removeItem] or
    [updateQuantity] (quantity at least 1) does, in this order and nothing
    else: write the new snapshot to [localStorage], cancel the pending timer
    if there is one, set the timer of the debounced write, broadcast the new
    snapshot, set the state. The call sends no request to the object store;
    the write happens when the timer fires, and the callback of the timer
    broadcasts nothing, whatever the outcome of the write. [clearCart]
    broadcasts the empty snapshot at the end of the call. *)
Theorem notification_order :
  (forall m ok st,
     IndexedDB.notified_after_success false (IndexedDB.effects m ok st) = true
     /\ (In IndexedDB.PostMessage (IndexedDB.effects m ok st) -> ok = true))
  /\ (forall a st,
        Hybrid.debounced a = true ->
        let s := Hybrid.items (Hybrid.step st a) in
        Hybrid.log (Hybrid.step st a)
        = Hybrid.log st ++ [Hybrid.LocalStorageSet s]
            ++ match Hybrid.syncTimeoutRef st with
               | Some timer => [Hybrid.ClearTimeout timer]
               | None => []
               end
            ++ [Hybrid.SetTimeout (Hybrid.next_timer st) (Hybrid.clock st + Hybrid.debounce);
                Hybrid.PostMessage s; Hybrid.SetItems s])
  /\ (forall st,
        Hybrid.log (Hybrid.clearCart st)
        = Hybrid.log st ++ [Hybrid.SetItems []; Hybrid.LocalStorageRemove]
            ++ (if Hybrid.dbRef st then [Hybrid.StoreClear] else [])
            ++ [Hybrid.PostMessage []])
  /\ (forall dt ok st,
        exists new,
          Hybrid.log (Hybrid.advance dt ok st) = Hybrid.log st ++ new
          /\ List.filter Hybrid.is_broadcast new = []).
Proof.
  split; [exact indexeddb_effects|]. split; [|split].
  - intros a st Ha. apply debounced_log, Ha.
  - exact clearCart_log.
  - exact advance_no_broadcast.
Qed.

Lemma notification_order_witness :
  Hybrid.log (Hybrid.step
                (Hybrid.addItem smartphone (Hybrid.init true (Hybrid.initial None ∅)))
                (Hybrid.AddItem laptop))
  = [Hybrid.SetLoading false;
     Hybrid.LocalStorageSet [LineItem.mk 2 "Smartphone" 699 1 []];
     Hybrid.SetTimeout 1%positive 1000;
     Hybrid.PostMessage [LineItem.mk 2 "Smartphone" 699 1 []];
     Hybrid.SetItems [LineItem.mk 2 "Smartphone" 699 1 []];
     Hybrid.LocalStorageSet
       [LineItem.mk 2 "Smartphone" 699 1 []; LineItem.mk 1 "Laptop" 999 1 []];
     Hybrid.ClearTimeout 1%positive;
     Hybrid.SetTimeout 2%positive 1000;
     Hybrid.PostMessage
       [LineItem.mk 2 "Smartphone" 699 1 []; LineItem.mk 1 "Laptop" 999 1 []];
     Hybrid.SetItems
       [LineItem.mk 2 "Smartphone" 699 1 []; LineItem.mk 1 "Laptop" 999 1 []]].
Proof.
  rewrite (proj1 (proj2 notification_order) (Hybrid.AddItem laptop)
             (Hybrid.addItem smartphone (Hybrid.init true (Hybrid.initial None ∅)))
             eq_refl).
  reflexivity.
Defined.

(** ** Failure of the durable write *)

Lemma with_quantity_same item : LineItem.with_quantity item (LineItem.quantity item) = item.
Proof. destruct item; reflexivity. Qed.

(** The [catch] of [updateQuantity] in the IndexedDB variant rewrites each
    item with its own current quantity, so the snapshot after a failed
    request is the optimistic one. *)
Lemma indexeddb_updateQuantity_failed productId quantity st :
  IndexedDB.items (IndexedDB.updateQuantity productId quantity false st)
  = IndexedDB.items (IndexedDB.updateQuantity productId quantity true st).
Proof.
  unfold IndexedDB.updateQuantity.
  destruct (negb (IndexedDB.db st) || (quantity <? 1)); [reflexivity|].
  destruct (find_item productId (IndexedDB.items st)); [|reflexivity].
  simpl. rewrite <- (List.map_id (map _ (IndexedDB.items st))) at 2.
  apply List.map_ext. intros item.
  destruct (LineItem.id item =? productId); [apply with_quantity_same|reflexivity].
Qed.

(** When the item is in the cart, the [catch] of [updateQuantity] and the
    [catch] of [addItem] undo nothing: the first rewrites each item with its
    own current quantity and the second keeps [prev], so the snapshot after
    the failed request holds the new quantity. *)
Lemma indexeddb_failed_on_existing st productId quantity product e :
  IndexedDB.db st = true ->
  (1 <= quantity ->
   find_item productId (IndexedDB.items st) = Some e ->
   IndexedDB.items (IndexedDB.updateQuantity productId quantity false st)
   = map (fun item =>
            if LineItem.id item =? productId
            then LineItem.mk (LineItem.id e) (LineItem.name e) (LineItem.price e)
                   quantity (LineItem.fields e)
            else item) (IndexedDB.items st))
  /\ (find_item (Product.id product) (IndexedDB.items st) = Some e ->
      IndexedDB.items (IndexedDB.addItem product false st)
      = map (fun item =>
               if LineItem.id item =? Product.id product
               then LineItem.mk (LineItem.id e) (LineItem.name e) (LineItem.price e)
                      (LineItem.quantity e + 1) (LineItem.fields e)
               else item) (IndexedDB.items st)).
Proof.
  intros Hdb. split.
  - intros Hq Hfind. rewrite indexeddb_updateQuantity_failed.
    unfold IndexedDB.updateQuantity. rewrite Hdb, Hfind.
    destruct (Z.ltb_spec quantity 1); [lia|]. reflexivity.
  - intros Hfind. unfold IndexedDB.addItem. rewrite Hdb, Hfind. reflexivity.
Qed.

Lemma removeItem_split productId (before after : Snapshot) item :
  LineItem.id item = productId ->
  Forall (fun x => LineItem.id x <> productId) before ->
  Forall (fun x => LineItem.id x <> productId) after ->
  removeItem_newItems productId (before ++ item :: after) = before ++ after.
Proof.
  intros Hid Hb Ha. unfold removeItem_newItems. rewrite List.filter_app. simpl.
  apply Z.eqb_eq in Hid. rewrite Hid. simpl.
  rewrite !filter_absent_id by assumption. reflexivity.
Qed.

Lemma indexeddb_removeItem_failed st productId :
  IndexedDB.db st = true ->
  IndexedDB.items (IndexedDB.removeItem productId false st)
  = removeItem_newItems productId (IndexedDB.items st)
      ++ match find_item productId (IndexedDB.items st) with
         | Some removedItem => [removedItem]
         | None => []
         end.
Proof.
  intros Hdb. unfold IndexedDB.removeItem. rewrite Hdb. simpl.
  destruct (find_item productId (IndexedDB.items st)); simpl;
    [reflexivity|rewrite app_nil_r; reflexivity].
Qed.

Lemma moved_to_end_differs (before after : Snapshot) e :
  Forall (fun x => LineItem.id x <> LineItem.id e) after ->
  after <> [] ->
  before ++ after ++ [e] <> before ++ e :: after.
Proof.
  intros Ha Hne E. apply app_inv_head in E.
  destruct after as [|x after]; [contradiction|].
  injection E as -> _. inversion Ha; subst. contradiction.
Qed.

(** C1, as stated, fails in the hybrid variant: when the debounced write of
    an [addItem] fails, the error is logged and the snapshot keeps the added
    item. *)
Lemma hybrid_failed_sync_no_rollback :
  let st := Hybrid.init true (Hybrid.initial None ∅) in
  let st' := Hybrid.run [Hybrid.AddItem laptop; Hybrid.Advance 1000 false] st in
  Hybrid.durable_writes (Hybrid.log st')
  = [Hybrid.StoreSync [LineItem.mk 1 "Laptop" 999 1 []] false]
  /\ Hybrid.items st = []
  /\ Hybrid.items st' = [LineItem.mk 1 "Laptop" 999 1 []]
  /\ Hybrid.cart st' = ∅.
Proof. vm_compute. repeat split. Qed.

(** C1, amended. In the IndexedDB variant, with the database open and a
    request that fails: [clearCart] restores exactly the snapshot from before
    the call, and so does [addItem] of a product whose id is absent, so that
    whatever is computed from the snapshot, as [total] is, has the value it
    had before the call. After a
    failed [removeItem] the snapshot is the one from before the call with the
    removed item moved to the end: the same snapshot when the id is absent or
    the item was the last one, another one when items followed it. In the
    hybrid variant no write to the object store, failed or not, changes the
    snapshot: the optimistic state stays. *)
Theorem failed_write_rollback :
  (forall st,
     IndexedDB.db st = true ->
     IndexedDB.items (IndexedDB.clearCart false st) = IndexedDB.items st
     /\ forall (A : Type) (total : Snapshot -> A),
          total (IndexedDB.items (IndexedDB.clearCart false st))
          = total (IndexedDB.items st))
  /\ (forall st product,
        IndexedDB.db st = true ->
        Forall (fun item => LineItem.id item <> Product.id product) (IndexedDB.items st) ->
        IndexedDB.items (IndexedDB.addItem product false st) = IndexedDB.items st
        /\ forall (A : Type) (total : Snapshot -> A),
             total (IndexedDB.items (IndexedDB.addItem product false st))
             = total (IndexedDB.items st))
  /\ (forall st productId,
        IndexedDB.db st = true ->
        Forall (fun item => LineItem.id item <> productId) (IndexedDB.items st) ->
        IndexedDB.items (IndexedDB.removeItem productId false st) = IndexedDB.items st)
  /\ (forall st productId before e after,
        IndexedDB.db st = true ->
        IndexedDB.items st = before ++ e :: after ->
        LineItem.id e = productId ->
        Forall (fun item => LineItem.id item <> productId) before ->
        Forall (fun item => LineItem.id item <> productId) after ->
        IndexedDB.items (IndexedDB.removeItem productId false st) = before ++ after ++ [e]
        /\ (after <> [] ->
            IndexedDB.items (IndexedDB.removeItem productId false st) <> IndexedDB.items st))
  /\ (forall dt ok st,
        Hybrid.items (Hybrid.advance dt ok st) = Hybrid.items st).
Proof.
  split; [|split; [|split; [|split]]].
  - intros st Hdb.
    assert (E : IndexedDB.items (IndexedDB.clearCart false st) = IndexedDB.items st).
    { unfold IndexedDB.clearCart. rewrite Hdb. reflexivity. }
    split; [exact E|]. intros A total. rewrite E. reflexivity.
  - intros st product Hdb Habsent.
    assert (E : IndexedDB.items (IndexedDB.addItem product false st) = IndexedDB.items st).
    { unfold IndexedDB.addItem. rewrite Hdb. simpl.
      rewrite (proj2 (find_item_None _ _) Habsent). simpl.
      rewrite List.filter_app, filter_absent_id by assumption.
      simpl. rewrite Z.eqb_refl. simpl. apply app_nil_r. }
    split; [exact E|]. intros A total. rewrite E. reflexivity.
  - intros st productId Hdb Habsent. rewrite indexeddb_removeItem_failed by exact Hdb.
    rewrite (proj2 (find_item_None _ _) Habsent), app_nil_r.
    apply filter_absent_id, Habsent.
  - intros st productId before e after Hdb Hs Hid Hb Ha.
    assert (E : IndexedDB.items (IndexedDB.removeItem productId false st)
                = before ++ after ++ [e]).
    { rewrite indexeddb_removeItem_failed by exact Hdb. rewrite Hs.
      rewrite (find_item_unique productId before after e Hid Hb).
      rewrite (removeItem_split productId before after e Hid Hb Ha).
      rewrite <- app_assoc. reflexivity. }
    split; [exact E|]. intros Hne. rewrite E, Hs.
    apply moved_to_end_differs; [|exact Hne]. rewrite Hid. exact Ha.
  - exact advance_items.
Qed.

Lemma failed_write_rollback_witness :
  IndexedDB.items
    (IndexedDB.addItem smartphone false
       (IndexedDB.addItem laptop true (IndexedDB.init true (IndexedDB.initial ∅))))
  = [LineItem.mk 1 "Laptop" 999 1 []]
  /\ IndexedDB.items
       (IndexedDB.removeItem 1 false
          (IndexedDB.addItem smartphone true
             (IndexedDB.addItem laptop true (IndexedDB.init true (IndexedDB.initial ∅)))))
     = [LineItem.mk 2 "Smartphone" 699 1 []; LineItem.mk 1 "Laptop" 999 1 []].
Proof.
  split.
  - assert (H : IndexedDB.items
                  (IndexedDB.addItem smartphone false
                     (IndexedDB.addItem laptop true
                        (IndexedDB.init true (IndexedDB.initial ∅))))
                = IndexedDB.items
                    (IndexedDB.addItem laptop true
                       (IndexedDB.init true (IndexedDB.initial ∅)))).
    { apply (proj1 (proj2 failed_write_rollback)).
      - reflexivity.
      - vm_compute. repeat constructor. discriminate. }
    exact H.
  - destruct (proj1 (proj2 (proj2 (proj2 failed_write_rollback)))
                (IndexedDB.addItem smartphone true
                   (IndexedDB.addItem laptop true
                      (IndexedDB.init true (IndexedDB.initial ∅))))
                1 [] (LineItem.mk 1 "Laptop" 999 1 []) [LineItem.mk 2 "Smartphone" 699 1 []])
      as (H & _).
    + reflexivity.
    + reflexivity.
    + reflexivity.
    + constructor.
    + repeat constructor. simpl. lia.
    + exact H.
Defined.

(** * Further properties of the code *)

(** ** Removing, and how the updaters compose *)

Lemma find_item_split productId (s : Snapshot) e :
  NoDup (ids s) ->
  find_item productId s = Some e ->
  exists before after,
    s = before ++ e :: after /\ LineItem.id e = productId
    /\ Forall (fun x => LineItem.id x <> productId) before
    /\ Forall (fun x => LineItem.id x <> productId) after.
Proof.
  intros Hnd Hfind.
  destruct (find_item_Some productId s e Hfind) as (before & after & -> & Hid & Hb).
  exists before, after. repeat split; try assumption.
  unfold ids in Hnd. rewrite List.map_app in Hnd. simpl in Hnd.
  apply NoDup_app in Hnd as (_ & _ & Hnd). apply NoDup_cons in Hnd as [Hr _].
  apply List.Forall_forall. intros x Hx E. apply Hr.
  rewrite Hid, <- E. apply list_elem_of_In, in_map, Hx.
Qed.

Lemma removeItem_clean productId (s : Snapshot) :
  Forall (fun x => LineItem.id x <> productId) (removeItem_newItems productId s).
Proof.
  apply List.Forall_forall. intros x Hx.
  apply List.filter_In in Hx as [_ Hx]. apply negb_true_iff, Z.eqb_neq in Hx. exact Hx.
Qed.

(** X1. [removeItem] leaves no item with the id; an id that is not in the
    cart leaves the snapshot as it is; a second removal of the same id
    changes nothing; and with one item of that id, the items before and after
    it stay, in their order. The hybrid provider computes the same
    snapshot. *)
Theorem removeItem_spec (productId : Z) (s : Snapshot) :
  Forall (fun x => LineItem.id x <> productId) (Context.removeItem productId s)
  /\ (Forall (fun x => LineItem.id x <> productId) s -> Context.removeItem productId s = s)
  /\ Context.removeItem productId (Context.removeItem productId s)
     = Context.removeItem productId s
  /\ (forall before item after,
        s = before ++ item :: after ->
        LineItem.id item = productId ->
        Forall (fun x => LineItem.id x <> productId) before ->
        Forall (fun x => LineItem.id x <> productId) after ->
        Context.removeItem productId s = before ++ after)
  /\ (forall st, Hybrid.items st = s ->
        Hybrid.items (Hybrid.removeItem productId st) = Context.removeItem productId s).
Proof.
  unfold Context.removeItem. split; [apply removeItem_clean|].
  split; [apply filter_absent_id|].
  split; [apply filter_absent_id, removeItem_clean|].
  split.
  - intros before item after -> Hid Hb Ha. apply removeItem_split; assumption.
  - intros st <-. reflexivity.
Qed.

Lemma removeItem_spec_witness :
  Context.removeItem 2
    [LineItem.of_product laptop 1; LineItem.of_product smartphone 3;
     LineItem.of_product headphones 2]
  = [LineItem.of_product laptop 1; LineItem.of_product headphones 2]
  /\ Context.removeItem 7 cached_cart = cached_cart.
Proof.
  split.
  - destruct (removeItem_spec 2
                [LineItem.of_product laptop 1; LineItem.of_product smartphone 3;
                 LineItem.of_product headphones 2]) as (_ & _ & _ & H & _).
    apply (H [LineItem.of_product laptop 1] (LineItem.of_product smartphone 3)
             [LineItem.of_product headphones 2]).
    + reflexivity.
    + reflexivity.
    + repeat constructor. simpl. lia.
    + repeat constructor. simpl. lia.
  - apply (proj1 (proj2 (removeItem_spec 7 cached_cart))).
    repeat constructor. simpl. lia.
Defined.

(** X2. Adding a product that is not in the cart, any number of times, and
    then removing its id gives back the snapshot from before the first
    add. *)
Theorem addItem_then_removeItem (n : nat) (product : Product.t) (s : Snapshot) :
  Forall (fun item => LineItem.id item <> Product.id product) s ->
  Context.removeItem (Product.id product) (Nat.iter n (Context.addItem product) s) = s.
Proof.
  intros Habsent. unfold Context.removeItem, Context.addItem.
  destruct n as [|n].
  - simpl. apply filter_absent_id, Habsent.
  - rewrite addItem_iterated by assumption.
    rewrite <- (app_nil_r s) at 2.
    apply removeItem_split; [reflexivity|assumption|constructor].
Qed.

Lemma addItem_then_removeItem_witness :
  Context.removeItem 2 (Nat.iter 4 (Context.addItem smartphone) cached_cart) = cached_cart.
Proof.
  apply (addItem_then_removeItem 4 smartphone cached_cart).
  repeat constructor. simpl. lia.
Defined.

(** ** Identifiers: order and uniqueness *)

(** X5. The updaters keep the order of the cart: [updateQuantity] leaves the
    sequence of ids as it is, [addItem] leaves it as it is when the id is
    present and appends the id at the end when it is not, and [removeItem]
    deletes the id from the sequence. *)
Theorem updaters_keep_order (product : Product.t) (productId quantity : Z) (s : Snapshot) :
  ids (Context.updateQuantity productId quantity s) = ids s
  /\ (forall e, find_item (Product.id product) s = Some e ->
        ids (Context.addItem product s) = ids s)
  /\ (find_item (Product.id product) s = None ->
        ids (Context.addItem product s) = ids s ++ [Product.id product])
  /\ ids (Context.removeItem productId s)
     = List.filter (fun k => negb (k =? productId)) (ids s).
Proof.
  split; [|split; [|split]].
  - unfold Context.updateQuantity, updateQuantity_newItems.
    destruct (quantity <? 1); [reflexivity|].
    apply ids_map_same_id. intros item.
    destruct (LineItem.id item =? productId); reflexivity.
  - intros e He. unfold Context.addItem, addItem_newItems. rewrite He.
    apply ids_map_same_id. intros item.
    destruct (LineItem.id item =? Product.id product); reflexivity.
  - intros Hnone. unfold Context.addItem, addItem_newItems. rewrite Hnone.
    unfold ids. rewrite List.map_app. reflexivity.
  - unfold Context.removeItem, removeItem_newItems, ids.
    induction s as [|x s IH]; simpl; [reflexivity|].
    destruct (LineItem.id x =? productId); simpl; rewrite IH; reflexivity.
Qed.

Lemma updaters_keep_order_witness :
  ids (Context.addItem laptop [LineItem.of_product laptop 1; LineItem.of_product smartphone 1])
  = [1; 2]
  /\ ids (Context.addItem headphones
            [LineItem.of_product laptop 1; LineItem.of_product smartphone 1])
     = [1; 2; 3].
Proof.
  split.
  - apply (proj1 (proj2 (updaters_keep_order laptop 0 0
             [LineItem.of_product laptop 1; LineItem.of_product smartphone 1]))
             (LineItem.of_product laptop 1)).
    reflexivity.
  - apply (proj1 (proj2 (proj2 (updaters_keep_order headphones 0 0
             [LineItem.of_product laptop 1; LineItem.of_product smartphone 1])))).
    reflexivity.
Defined.

(** X6. In every state reached from an empty cart by the four mutations of
    the hybrid provider no two items share an id. *)
Theorem reachable_unique_ids (st : Hybrid.State) :
  Hybrid.reachable st ->
  NoDup (ids (Hybrid.items st))
  /\ forall k e, find_item k (Hybrid.items st) = Some e ->
       Context.removeItem k (Hybrid.items st)
       = List.filter (fun item => negb (bool_decide (item = e))) (Hybrid.items st).
Proof.
  intros Hr. pose proof (reachable_NoDup st Hr) as Hnd. split; [exact Hnd|].
  intros k e Hfind.
  destruct (find_item_split _ _ _ Hnd Hfind) as (before & after & E & Hid & Hb & Ha).
  rewrite E. unfold Context.removeItem. rewrite removeItem_split by assumption.
  rewrite List.filter_app. simpl. rewrite bool_decide_eq_true_2 by reflexivity. simpl.
  assert (F : forall l : Snapshot,
            Forall (fun x => LineItem.id x <> k) l ->
            List.filter (fun item => negb (bool_decide (item = e))) l = l).
  { induction 1 as [|x l Hx _ IH]; simpl; [reflexivity|].
    rewrite bool_decide_eq_false_2 by (intros ->; contradiction).
    simpl. rewrite IH. reflexivity. }
  rewrite !F by assumption. reflexivity.
Qed.

Lemma reachable_unique_ids_witness :
  NoDup (ids (Hybrid.items
                (Hybrid.run [Hybrid.AddItem laptop; Hybrid.AddItem smartphone;
                             Hybrid.AddItem laptop; Hybrid.RemoveItem 2;
                             Hybrid.AddItem smartphone]
                            (Hybrid.initial None ∅)))).
Proof.
  apply reachable_unique_ids.
  unfold Hybrid.run. cbn [fold_left].
  repeat (apply Hybrid.reachable_step; [|reflexivity]).
  apply Hybrid.reachable_empty. reflexivity.
Defined.

(** ** The fast tier follows the snapshot *)

Lemma updateStorage_frame s st :
  let st' := Hybrid.setItems s (Hybrid.updateStorage s st) in
  Hybrid.items st' = s
  /\ Hybrid.localStorage st' = Some (Hybrid.Json s)
  /\ Hybrid.cart st' = Hybrid.cart st
  /\ Hybrid.dbRef st' = Hybrid.dbRef st
  /\ Hybrid.loading st' = Hybrid.loading st
  /\ exists new, Hybrid.log st' = Hybrid.log st ++ new /\ Hybrid.durable_writes new = [].
Proof.
  unfold Hybrid.updateStorage, Hybrid.syncToIndexedDB.
  destruct (Hybrid.syncTimeoutRef (Hybrid.localStorage_setItem s st)) eqn:E;
    simpl; repeat split; eexists; repeat rewrite <- app_assoc;
    (split; [reflexivity|reflexivity]).
Qed.

Lemma mutation_frame a st :
  Hybrid.mutation a = true ->
  Hybrid.dbRef (Hybrid.step st a) = Hybrid.dbRef st
  /\ Hybrid.loading (Hybrid.step st a) = Hybrid.loading st
  /\ (Hybrid.dbRef st = false ->
      Hybrid.cart (Hybrid.step st a) = Hybrid.cart st
      /\ exists new, Hybrid.log (Hybrid.step st a) = Hybrid.log st ++ new
                     /\ Hybrid.durable_writes new = []).
Proof.
  intros Ha.
  assert (G : forall s,
    let st' := Hybrid.setItems s (Hybrid.updateStorage s st) in
    Hybrid.dbRef st' = Hybrid.dbRef st
    /\ Hybrid.loading st' = Hybrid.loading st
    /\ (Hybrid.dbRef st = false ->
        Hybrid.cart st' = Hybrid.cart st
        /\ exists new, Hybrid.log st' = Hybrid.log st ++ new
                       /\ Hybrid.durable_writes new = [])).
  { intros s. destruct (updateStorage_frame s st) as (_ & _ & Hc & Hd & Hl & Hlog).
    cbv zeta in *. auto. }
  destruct a; try discriminate Ha; unfold Hybrid.step.
  - apply G.
  - unfold Hybrid.updateQuantity. destruct (quantity <? 1); [|apply G].
    repeat split. exists []. rewrite app_nil_r. auto.
  - apply G.
  - unfold Hybrid.clearCart. simpl. destruct (Hybrid.dbRef st) eqn:Hdb; simpl.
    + split; [auto|]. split; [reflexivity|]. intros H. discriminate H.
    + split; [auto|]. split; [reflexivity|]. intros _. split; [reflexivity|].
      eexists. repeat rewrite <- app_assoc. split; reflexivity.
Qed.

Lemma advance_frame dt ok st :
  Hybrid.items (Hybrid.advance dt ok st) = Hybrid.items st
  /\ Hybrid.dbRef (Hybrid.advance dt ok st) = Hybrid.dbRef st
  /\ Hybrid.localStorage (Hybrid.advance dt ok st) = Hybrid.localStorage st.
Proof.
  unfold Hybrid.advance.
  match goal with
  | |- Hybrid.items (fold_left _ ?ready ?st0) = _ /\ _ =>
      destruct (fold_sync_callback_frame ok ready st0) as (Hi & Hd & _ & Hl & _)
  end.
  cbv zeta in *. rewrite Hi, Hd, Hl. repeat split.
Qed.




(** ** Messages between tabs *)

Lemma handleMessage_items received st :
  Hybrid.items (Hybrid.handleMessage "CART_UPDATED" received st) = received.
Proof.
  unfold Hybrid.handleMessage. rewrite String.eqb_refl.
  destruct (negb _) eqn:D; [reflexivity|].
  apply negb_false_iff, String.eqb_eq, stringify_inj in D. exact D.
Qed.

(** X8. Handling a message touches the snapshot and nothing else: the
    [localStorage] slot, the object store, the timers, the clock and the
    flags are as before, and the only effect that can be logged is the
    [setItems] of the received snapshot; so nothing is persisted and nothing
    is broadcast in turn. After a [CART_UPDATED] message the snapshot is the
    received one. *)
Theorem handleMessage_only_sets_items (type : string) (received : Snapshot)
    (st : Hybrid.State) :
  let st' := Hybrid.handleMessage type received st in
  Hybrid.localStorage st' = Hybrid.localStorage st
  /\ Hybrid.cart st' = Hybrid.cart st
  /\ Hybrid.timers st' = Hybrid.timers st
  /\ Hybrid.syncTimeoutRef st' = Hybrid.syncTimeoutRef st
  /\ Hybrid.clock st' = Hybrid.clock st
  /\ Hybrid.loading st' = Hybrid.loading st
  /\ Hybrid.dbRef st' = Hybrid.dbRef st
  /\ Forall (fun e => e = Hybrid.SetItems received)
       (Hybrid.effects [Hybrid.Message type received] st)
  /\ (type = "CART_UPDATED"%string -> Hybrid.items st' = received).
Proof.
  cbv zeta. unfold Hybrid.effects, Hybrid.run. cbn [fold_left Hybrid.step].
  split; [|split; [|split; [|split; [|split; [|split; [|split; [|split]]]]]]];
    try (unfold Hybrid.handleMessage;
         destruct (String.eqb type "CART_UPDATED"); [|reflexivity];
         destruct (negb _); reflexivity).
  - unfold Hybrid.handleMessage.
    destruct (String.eqb type "CART_UPDATED"); [|rewrite drop_all; constructor].
    destruct (negb _); [|rewrite drop_all; constructor].
    simpl. rewrite drop_app_length. repeat constructor.
  - intros ->. apply handleMessage_items.
Qed.

Lemma broadcasts_effective a st :
  Hybrid.debounced a = true \/ a = Hybrid.ClearCart ->
  Lifecycle.broadcasts a st = [Hybrid.PostMessage (Hybrid.items (Hybrid.step st a))].
Proof.
  unfold Lifecycle.broadcasts, Hybrid.effects, Hybrid.run. cbn [fold_left].
  assert (G : forall s,
    List.filter Hybrid.is_broadcast
      (drop (length (Hybrid.log st))
         (Hybrid.log (Hybrid.setItems s (Hybrid.updateStorage s st))))
    = [Hybrid.PostMessage (Hybrid.items (Hybrid.setItems s (Hybrid.updateStorage s st)))]).
  { intros s. unfold Hybrid.updateStorage, Hybrid.syncToIndexedDB.
    destruct (Hybrid.syncTimeoutRef (Hybrid.localStorage_setItem s st)); simpl;
      repeat rewrite <- app_assoc; rewrite drop_app_length; reflexivity. }
  intros [Ha| ->].
  - destruct a; try discriminate Ha; unfold Hybrid.step.
    + apply G.
    + unfold Hybrid.updateQuantity. simpl in Ha.
      destruct (quantity <? 1); [discriminate|apply G].
    + apply G.
  - unfold Hybrid.step, Hybrid.clearCart. simpl.
    destruct (Hybrid.dbRef st); simpl;
      repeat rewrite <- app_assoc; rewrite drop_app_length; reflexivity.
Qed.

(** X9. A tab that handles the message broadcast by a mutation of another
    tab ends with the snapshot of the mutating tab. Each of [addItem],
    [removeItem], [clearCart] and [updateQuantity] with a quantity of at
    least 1 broadcasts exactly one message, and it carries the snapshot the
    mutation produced. *)
Theorem message_propagates (a : Hybrid.Action) (stA stB : Hybrid.State) :
  Hybrid.debounced a = true \/ a = Hybrid.ClearCart ->
  (exists sent, Lifecycle.broadcasts a stA = [Hybrid.PostMessage sent])
  /\ forall sent,
       In (Hybrid.PostMessage sent) (Lifecycle.broadcasts a stA) ->
       Hybrid.items (Hybrid.handleMessage "CART_UPDATED" sent stB)
       = Hybrid.items (Hybrid.step stA a).
Proof.
  intros Ha. rewrite (broadcasts_effective a stA Ha). split; [eauto|].
  intros sent [E|[]]. injection E as <-. apply handleMessage_items.
Qed.

Lemma message_propagates_witness :
  Hybrid.items
    (Hybrid.handleMessage "CART_UPDATED" [LineItem.of_product laptop 1]
       (Hybrid.addItem smartphone (Hybrid.initial None ∅)))
  = Hybrid.items (Hybrid.step (Hybrid.initial None ∅) (Hybrid.AddItem laptop)).
Proof.
  apply (proj2 (message_propagates (Hybrid.AddItem laptop) (Hybrid.initial None ∅)
                  (Hybrid.addItem smartphone (Hybrid.initial None ∅))
                  (or_introl eq_refl))).
  left. reflexivity.
Defined.

(** X10. Messages are applied without any merge or ordering: when two tabs
    each perform a mutation and then each handles the message of the other,
    the tabs end with each other's snapshot, so they disagree whenever the
    two mutations produced different snapshots. *)
Theorem concurrent_mutations_swap (a b : Hybrid.Action) (stA stB : Hybrid.State) :
  Hybrid.debounced a = true \/ a = Hybrid.ClearCart ->
  Hybrid.debounced b = true \/ b = Hybrid.ClearCart ->
  forall sentA sentB,
    In (Hybrid.PostMessage sentA) (Lifecycle.broadcasts a stA) ->
    In (Hybrid.PostMessage sentB) (Lifecycle.broadcasts b stB) ->
    let stA' := Hybrid.handleMessage "CART_UPDATED" sentB (Hybrid.step stA a) in
    let stB' := Hybrid.handleMessage "CART_UPDATED" sentA (Hybrid.step stB b) in
    Hybrid.items stA' = Hybrid.items (Hybrid.step stB b)
    /\ Hybrid.items stB' = Hybrid.items (Hybrid.step stA a)
    /\ (Hybrid.items (Hybrid.step stA a) <> Hybrid.items (Hybrid.step stB b) ->
        Hybrid.items stA' <> Hybrid.items stB').
Proof.
  intros Ha Hb sentA sentB HA HB.
  rewrite (broadcasts_effective a stA Ha) in HA.
  rewrite (broadcasts_effective b stB Hb) in HB.
  destruct HA as [EA|[]]. destruct HB as [EB|[]].
  injection EA as <-. injection EB as <-. cbv zeta.
  rewrite !handleMessage_items. repeat split. intros Hne E. apply Hne. symmetry. exact E.
Qed.

Lemma concurrent_mutations_swap_witness :
  Hybrid.items
    (Hybrid.handleMessage "CART_UPDATED" [LineItem.of_product smartphone 1]
       (Hybrid.step (Hybrid.initial None ∅) (Hybrid.AddItem laptop)))
  = [LineItem.of_product smartphone 1]
  /\ Hybrid.items
       (Hybrid.handleMessage "CART_UPDATED" [LineItem.of_product laptop 1]
          (Hybrid.step (Hybrid.initial None ∅) (Hybrid.AddItem smartphone)))
     = [LineItem.of_product laptop 1].
Proof.
  destruct (concurrent_mutations_swap (Hybrid.AddItem laptop) (Hybrid.AddItem smartphone)
              (Hybrid.initial None ∅) (Hybrid.initial None ∅)
              (or_introl eq_refl) (or_introl eq_refl)
              [LineItem.of_product laptop 1] [LineItem.of_product smartphone 1])
    as (H1 & H2 & _).
  - left. reflexivity.
  - left. reflexivity.
  - split; [exact H1|exact H2].
Defined.

(** ** Teardown *)

Lemma unmount_clears st :
  Hybrid.timers_wf st ->
  Hybrid.timers (Lifecycle.unmount st) = []
  /\ Hybrid.items (Lifecycle.unmount st) = Hybrid.items st
  /\ Hybrid.cart (Lifecycle.unmount st) = Hybrid.cart st
  /\ Hybrid.localStorage (Lifecycle.unmount st) = Hybrid.localStorage st
  /\ Hybrid.durable_writes (Hybrid.log (Lifecycle.unmount st))
     = Hybrid.durable_writes (Hybrid.log st).
Proof.
  unfold Hybrid.timers_wf, Lifecycle.unmount. intros Hwf.
  destruct (Hybrid.timers st) as [|t [|t' ts]] eqn:Ht; try contradiction.
  - destruct (Hybrid.syncTimeoutRef st); simpl; rewrite ?Ht; repeat split;
      unfold Hybrid.durable_writes; rewrite List.filter_app; simpl; apply app_nil_r.
  - rewrite Hwf. simpl. rewrite Ht. simpl. rewrite Pos.eqb_refl. simpl.
    repeat split. unfold Hybrid.durable_writes. rewrite List.filter_app. apply app_nil_r.
Qed.

(** X11. The cleanup of the provider cancels the pending debounce timer: after
    it no timer is left, so however much time passes nothing is written to
    the object store any more. A mutation made less than the debounce delay
    before the cleanup therefore never reaches the object store, while
    [localStorage] holds its snapshot. *)
Theorem unmount_drops_pending_sync (a : Hybrid.Action) (st : Hybrid.State)
    (gap dt : nat) (ok : bool) :
  Hybrid.timers_wf st ->
  Hybrid.debounced a = true ->
  (gap < Hybrid.debounce)%nat ->
  let st1 := Hybrid.step st a in
  let st2 := Lifecycle.unmount (Hybrid.advance gap ok st1) in
  let st3 := Hybrid.advance dt ok st2 in
  Hybrid.timers st2 = []
  /\ Hybrid.cart st3 = Hybrid.cart st
  /\ Hybrid.durable_writes (Hybrid.log st3) = Hybrid.durable_writes (Hybrid.log st)
  /\ Hybrid.localStorage st3 = Some (Hybrid.Json (Hybrid.items st1))
  /\ Hybrid.items st3 = Hybrid.items st1.
Proof.
  intros Hwf Ha Hgap st1 st2 st3.
  destruct (debounced_step a st Ha Hwf)
    as (Ht & Hr & Hd & Hc & Hcart & Hls & new & Hlog & Hdw & _).
  fold st1 in Ht, Hr, Hd, Hc, Hcart, Hls, Hlog.
  assert (E1 : Hybrid.advance gap ok st1 = Hybrid.set_clock (Hybrid.clock st1 + gap) st1).
  { apply advance_idle. rewrite Ht. repeat constructor. simpl. lia. }
  assert (Hwf1 : Hybrid.timers_wf (Hybrid.advance gap ok st1)).
  { apply (step_timers_wf (Hybrid.Advance gap ok)), (step_timers_wf a), Hwf. }
  destruct (unmount_clears _ Hwf1) as (Ht2 & Hi2 & Hc2 & Hl2 & Hw2).
  fold st2 in Ht2, Hi2, Hc2, Hl2, Hw2.
  assert (E3 : st3 = Hybrid.set_clock (Hybrid.clock st2 + dt) st2).
  { apply advance_idle. rewrite Ht2. constructor. }
  rewrite E3. cbn [Hybrid.cart Hybrid.log Hybrid.localStorage Hybrid.items Hybrid.set_clock].
  rewrite Hc2, Hw2, Hl2, Hi2, E1.
  cbn [Hybrid.cart Hybrid.log Hybrid.localStorage Hybrid.items Hybrid.set_clock].
  rewrite Hcart, Hls, Hlog. unfold Hybrid.durable_writes in *.
  rewrite List.filter_app, Hdw, app_nil_r. repeat split. exact Ht2.
Qed.

Lemma unmount_drops_pending_sync_witness :
  let st := Hybrid.init true (Hybrid.initial None ∅) in
  let st3 := Hybrid.advance 5000 true
               (Lifecycle.unmount (Hybrid.advance 200 true (Hybrid.addItem laptop st))) in
  Hybrid.cart st3 = ∅
  /\ Hybrid.localStorage st3 = Some (Hybrid.Json [LineItem.of_product laptop 1]).
Proof.
  destruct (unmount_drops_pending_sync (Hybrid.AddItem laptop)
              (Hybrid.init true (Hybrid.initial None ∅)) 200 5000 true)
    as (_ & H1 & _ & H2 & _).
  - vm_compute. trivial.
  - reflexivity.
  - unfold Hybrid.debounce. lia.
  - split; [exact H1|exact H2].
Defined.

(** ** Without a database *)

Lemma advance_closed dt ok st :
  Hybrid.dbRef st = false ->
  Hybrid.cart (Hybrid.advance dt ok st) = Hybrid.cart st
  /\ Hybrid.log (Hybrid.advance dt ok st) = Hybrid.log st.
Proof.
  intros Hdb. unfold Hybrid.advance.
  set (st0 := Hybrid.set_clock _ _).
  assert (H0 : Hybrid.dbRef st0 = false) by exact Hdb.
  change (Hybrid.cart st) with (Hybrid.cart st0).
  change (Hybrid.log st) with (Hybrid.log st0).
  generalize dependent st0. clear.
  generalize (List.filter (fun t => (Hybrid.due t <=? Hybrid.clock st + dt)%nat)
                (Hybrid.timers st)).
  intros ready. induction ready as [|t ready IH]; intros st0 H0; [split; reflexivity|].
  simpl. unfold Hybrid.sync_callback at 2 4. rewrite H0. simpl. apply IH, H0.
Qed.

Lemma step_closed a st :
  Hybrid.dbRef st = false ->
  Lifecycle.opens_database a = false ->
  Hybrid.dbRef (Hybrid.step st a) = false
  /\ Hybrid.cart (Hybrid.step st a) = Hybrid.cart st
  /\ exists new, Hybrid.log (Hybrid.step st a) = Hybrid.log st ++ new
                 /\ Hybrid.durable_writes new = [].
Proof.
  intros Hdb Ha.
  assert (M : Hybrid.mutation a = true ->
              Hybrid.dbRef (Hybrid.step st a) = false
              /\ Hybrid.cart (Hybrid.step st a) = Hybrid.cart st
              /\ exists new, Hybrid.log (Hybrid.step st a) = Hybrid.log st ++ new
                             /\ Hybrid.durable_writes new = []).
  { intros Hm. destruct (mutation_frame a st Hm) as (Hd & _ & H).
    destruct (H Hdb) as (Hc & Hlog). rewrite Hd. auto. }
  destruct a; try (apply M; reflexivity); unfold Hybrid.step.
  - unfold Hybrid.handleMessage. destruct (String.eqb _ _);
      [destruct (negb _)|]; simpl; repeat split; try assumption;
      eexists; first [rewrite app_nil_r; split; reflexivity | split; reflexivity].
  - unfold Hybrid.mount. destruct (Hybrid.localStorage st) as [[s|]|]; simpl;
      repeat split; try assumption;
      eexists; first [rewrite app_nil_r; split; reflexivity | split; reflexivity].
  - destruct ok; [discriminate Ha|]. simpl. repeat split; try assumption.
    eexists. rewrite <- app_assoc. split; reflexivity.
  - unfold Hybrid.init_onsuccess.
    destruct (0 <? length (ObjectStore.getAll (Hybrid.cart st)))%nat; simpl;
      repeat split; try assumption;
      eexists; repeat rewrite <- app_assoc; split; reflexivity.
  - destruct (advance_closed dt ok st Hdb) as (Hc & Hl).
    destruct (advance_frame dt ok st) as (_ & Hd & _).
    rewrite Hd, Hc, Hl. repeat split; try assumption.
    exists []. rewrite app_nil_r. auto.
Qed.

(** X12. When [initDB] fails, [init] ends the loading phase and leaves the
    snapshot read from [localStorage] and the empty [dbRef] as they are. With
    [dbRef] empty, whatever the provider does afterwards (mutations, timers
    firing, messages), short of a database being opened, the object store is
    never written: its content and the list of durable writes stay as they
    were. *)
Theorem no_database_no_durable_write (acts : list Hybrid.Action) (st : Hybrid.State) :
  Hybrid.dbRef st = false ->
  Forall (fun a => Lifecycle.opens_database a = false) acts ->
  let st0 := Hybrid.init false st in
  Hybrid.loading st0 = false
  /\ Hybrid.items st0 = Hybrid.items st
  /\ Hybrid.dbRef st0 = false
  /\ Hybrid.dbRef (Hybrid.run acts st0) = false
  /\ Hybrid.cart (Hybrid.run acts st0) = Hybrid.cart st
  /\ Hybrid.durable_writes (Hybrid.effects acts st0) = [].
Proof.
  intros Hdb Hacts st0.
  assert (H0 : Hybrid.dbRef st0 = false) by exact Hdb.
  split; [reflexivity|]. split; [reflexivity|]. split; [exact H0|].
  change (Hybrid.cart st) with (Hybrid.cart st0).
  unfold Hybrid.effects. clearbody st0. clear Hdb st.
  assert (G : Hybrid.dbRef (Hybrid.run acts st0) = false
              /\ Hybrid.cart (Hybrid.run acts st0) = Hybrid.cart st0
              /\ exists new, Hybrid.log (Hybrid.run acts st0) = Hybrid.log st0 ++ new
                             /\ Hybrid.durable_writes new = []).
  { revert st0 H0. induction Hacts as [|a acts Ha _ IH]; intros st0 H0.
    - repeat split; [exact H0|]. exists []. rewrite app_nil_r. auto.
    - destruct (step_closed a st0 H0 Ha) as (Hd & Hc & n1 & Hl1 & Hw1).
      destruct (IH _ Hd) as (Hd' & Hc' & n2 & Hl2 & Hw2).
      change (Hybrid.run (a :: acts) st0) with (Hybrid.run acts (Hybrid.step st0 a)).
      rewrite Hd', Hc', Hc, Hl2, Hl1. repeat split.
      exists (n1 ++ n2). rewrite app_assoc. split; [reflexivity|].
      unfold Hybrid.durable_writes in *. rewrite List.filter_app, Hw1, Hw2. reflexivity. }
  destruct G as (Hd & Hc & new & Hl & Hw).
  rewrite Hd, Hc, Hl, drop_app_length. auto.
Qed.

Lemma no_database_no_durable_write_witness :
  let st0 := Hybrid.init false
               (Hybrid.mount (Hybrid.initial (Some (Hybrid.Json cached_cart))
                                {[ 2 := LineItem.of_product smartphone 4 ]})) in
  let st' := Hybrid.run [Hybrid.AddItem laptop; Hybrid.Advance 2000 true;
                         Hybrid.ClearCart; Hybrid.Advance 2000 true] st0 in
  Hybrid.items st0 = cached_cart
  /\ Hybrid.cart st' = {[ 2 := LineItem.of_product smartphone 4 ]}.
Proof.
  destruct (no_database_no_durable_write
              [Hybrid.AddItem laptop; Hybrid.Advance 2000 true;
               Hybrid.ClearCart; Hybrid.Advance 2000 true]
              (Hybrid.mount (Hybrid.initial (Some (Hybrid.Json cached_cart))
                               {[ 2 := LineItem.of_product smartphone 4 ]})))
    as (_ & H1 & _ & _ & H2 & _).
  - reflexivity.
  - repeat constructor.
  - split; [exact H1|exact H2].
Defined.
(** ** Reading the object store *)

Lemma keyed_sorted_entries (store : gmap Z LineItem.t) :
  Sync.keyed store ->
  Forall (fun p => LineItem.id p.2 = p.1) (merge_sort ObjectStore.key_le (map_to_list store)).
Proof.
  intros Hk. apply Forall_forall. intros [k x] Hin.
  rewrite merge_sort_Permutation in Hin. apply elem_of_map_to_list in Hin.
  simpl. apply Hk, Hin.
Qed.

Lemma getAll_elem (store : gmap Z LineItem.t) x :
  Sync.keyed store ->
  x ∈ ObjectStore.getAll store <-> store !! LineItem.id x = Some x.
Proof.
  intros Hk. unfold ObjectStore.getAll.
  change (map snd ?l) with (snd <$> l). rewrite list_elem_of_fmap. split.
  - intros ([k y] & -> & Hin). rewrite merge_sort_Permutation in Hin.
    apply elem_of_map_to_list in Hin. simpl. rewrite (Hk k y Hin). exact Hin.
  - intros H. exists (LineItem.id x, x). split; [reflexivity|].
    rewrite merge_sort_Permutation. apply elem_of_map_to_list, H.
Qed.

Lemma getAll_ids (store : gmap Z LineItem.t) :
  Sync.keyed store ->
  ids (ObjectStore.getAll store)
  = (merge_sort ObjectStore.key_le (map_to_list store)).*1.
Proof.
  intros Hk. unfold ids, ObjectStore.getAll.
  pose proof (keyed_sorted_entries store Hk) as H.
  induction H as [|p l Hp _ IH]; simpl; [reflexivity|].
  rewrite Hp. f_equal. exact IH.
Qed.

Lemma getAll_NoDup (store : gmap Z LineItem.t) :
  Sync.keyed store -> NoDup (ids (ObjectStore.getAll store)).
Proof.
  intros Hk. rewrite getAll_ids by assumption.
  rewrite merge_sort_Permutation. apply NoDup_fst_map_to_list.
Qed.

Lemma key_le_total : Total ObjectStore.key_le.
Proof. intros a b. unfold ObjectStore.key_le. lia. Qed.

Lemma sorted_by_key_sorted_by_id (l : list (Z * LineItem.t)) :
  Forall (fun p => LineItem.id p.2 = p.1) l ->
  Sorted ObjectStore.key_le l -> Sorted Sync.id_le (map snd l).
Proof.
  intros Hl Hs. induction Hs as [|p l Hs IH Hhd]; simpl; [constructor|].
  inversion Hl as [|? ? Hp Hl']; subst. constructor; [apply IH, Hl'|].
  destruct Hhd as [|q l' Hpq]; simpl; constructor.
  inversion Hl' as [|? ? Hq _]; subst.
  unfold Sync.id_le, ObjectStore.key_le in *. rewrite Hp, Hq. exact Hpq.
Qed.

Lemma getAll_sorted (store : gmap Z LineItem.t) :
  Sync.keyed store -> Sorted Sync.id_le (ObjectStore.getAll store).
Proof.
  intros Hk. unfold ObjectStore.getAll.
  apply sorted_by_key_sorted_by_id; [apply keyed_sorted_entries, Hk|].
  apply Sorted_merge_sort. exact key_le_total.
Qed.

Lemma find_item_elem (s : Snapshot) x :
  NoDup (ids s) -> x ∈ s -> find_item (LineItem.id x) s = Some x.
Proof.
  unfold find_item, ids. induction s as [|y s IH]; simpl; intros Hnd Hx.
  - inversion Hx.
  - apply NoDup_cons in Hnd as [Hy Hnd].
    destruct (Z.eqb_spec (LineItem.id y) (LineItem.id x)) as [E|E].
    + apply elem_of_cons in Hx as [->|Hx]; [reflexivity|].
      exfalso. apply Hy. rewrite E. apply list_elem_of_In, in_map, list_elem_of_In, Hx.
    + apply elem_of_cons in Hx as [->|Hx]; [contradiction|]. apply IH; assumption.
Qed.

Lemma getAll_find (store : gmap Z LineItem.t) k :
  Sync.keyed store -> find_item k (ObjectStore.getAll store) = store !! k.
Proof.
  intros Hk. destruct (store !! k) as [x|] eqn:E.
  - pose proof (Hk k x E) as Hid. subst k.
    apply find_item_elem; [apply getAll_NoDup, Hk|]. apply getAll_elem; assumption.
  - destruct (find_item k (ObjectStore.getAll store)) as [y|] eqn:F; [|reflexivity].
    apply find_item_elem_inv in F as [Hy Hid]. apply getAll_elem in Hy; [|exact Hk].
    rewrite Hid in Hy. congruence.
Qed.

Lemma find_keyed (s : Snapshot) (store : gmap Z LineItem.t) :
  (forall k, store !! k = find_item k s) -> Sync.keyed store.
Proof.
  intros H k x Hx. rewrite H in Hx. apply find_item_elem_inv in Hx as [_ Hid]. exact Hid.
Qed.

Lemma NoDup_of_ids (s : Snapshot) : NoDup (ids s) -> NoDup s.
Proof. unfold ids. change (map ?f s) with (f <$> s). apply NoDup_fmap_1. Qed.

Lemma getAll_agrees (s : Snapshot) (store : gmap Z LineItem.t) :
  NoDup (ids s) ->
  (forall k, store !! k = find_item k s) ->
  ObjectStore.getAll store ≡ₚ s.
Proof.
  intros Hnd H. pose proof (find_keyed s store H) as Hk.
  apply NoDup_Permutation.
  - apply NoDup_of_ids, getAll_NoDup, Hk.
  - apply NoDup_of_ids, Hnd.
  - intros x. rewrite getAll_elem by assumption. rewrite H. split.
    + intros Hx. apply find_item_elem_inv in Hx as [Hx _]. exact Hx.
    + intros Hx. apply find_item_elem; assumption.
Qed.

(** ** What the debounced write leaves in the object store *)

(** X13. With the database open, once the debounce delay has passed after a
    mutation whose snapshot has no duplicate ids, and the write succeeds, the
    object store holds exactly the items of that snapshot, each under its id:
    reading the store back with [getAll] gives the same items, in ascending
    order of id rather than in the order of the cart. *)
Theorem sync_then_getAll (a : Hybrid.Action) (st : Hybrid.State) (settle : nat) :
  Hybrid.timers_wf st ->
  Hybrid.dbRef st = true ->
  Hybrid.debounced a = true ->
  NoDup (ids (Hybrid.items (Hybrid.step st a))) ->
  (Hybrid.debounce <= settle)%nat ->
  let st1 := Hybrid.step st a in
  let st2 := Hybrid.advance settle true st1 in
  Hybrid.items st2 = Hybrid.items st1
  /\ (forall k, Hybrid.cart st2 !! k = find_item k (Hybrid.items st1))
  /\ ObjectStore.getAll (Hybrid.cart st2) ≡ₚ Hybrid.items st1
  /\ Sorted Sync.id_le (ObjectStore.getAll (Hybrid.cart st2)).
Proof.
  intros Hwf Hdb Ha Hnd Hsettle st1 st2.
  destruct (debounced_step a st Ha Hwf) as (Ht & _ & Hd & Hc & _).
  fold st1 in Ht, Hd, Hc, Hnd.
  assert (E : st2 = Hybrid.sync_callback (Hybrid.items st1) true
                      (Hybrid.set_clock (Hybrid.clock st1 + settle)
                         (Hybrid.set_timers [] st1))).
  { apply (advance_fires settle true st1 _ Ht). simpl. lia. }
  destruct (sync_callback_commits (Hybrid.items st1)
              (Hybrid.set_clock (Hybrid.clock st1 + settle) (Hybrid.set_timers [] st1)))
    as (store & E' & Hin & Hout); [simpl; congruence|exact Hnd|].
  rewrite E' in E. clear E'.
  assert (Hagree : forall k, Hybrid.cart st2 !! k = find_item k (Hybrid.items st1)).
  { rewrite E. simpl. apply committed_store_agrees; assumption. }
  split; [rewrite E; reflexivity|]. split; [exact Hagree|]. split.
  - apply getAll_agrees; assumption.
  - apply getAll_sorted. exact (find_keyed _ _ Hagree).
Qed.

Lemma sync_then_getAll_witness :
  let st := Hybrid.addItem smartphone (Hybrid.init true (Hybrid.initial None ∅)) in
  let st2 := Hybrid.advance 1000 true (Hybrid.step st (Hybrid.AddItem laptop)) in
  Hybrid.items st2 = [LineItem.of_product smartphone 1; LineItem.of_product laptop 1]
  /\ Sorted Sync.id_le (ObjectStore.getAll (Hybrid.cart st2)).
Proof.
  destruct (sync_then_getAll (Hybrid.AddItem laptop)
              (Hybrid.addItem smartphone (Hybrid.init true (Hybrid.initial None ∅))) 1000)
    as (H1 & _ & _ & H2).
  - vm_compute. reflexivity.
  - reflexivity.
  - reflexivity.
  - vm_compute. apply NoDup_ListNoDup. repeat constructor; simpl; lia.
  - unfold Hybrid.debounce. lia.
  - split; [exact H1|exact H2].
Defined.

Example getAll_reorders :
  let st := Hybrid.addItem smartphone (Hybrid.init true (Hybrid.initial None ∅)) in
  let st2 := Hybrid.advance 1000 true (Hybrid.step st (Hybrid.AddItem laptop)) in
  ids (Hybrid.items st2) = [2; 1] /\ ids (ObjectStore.getAll (Hybrid.cart st2)) = [1; 2].
Proof. vm_compute. split; reflexivity. Qed.

(** X14. The write of the timer callback is all or nothing. When the browser
    fails a request, or when two items of the snapshot share an id (the
    second [store.add] is rejected), the object store keeps the content it
    had before the callback, the snapshot stays, and the only trace is the
    logged error. *)
Theorem failed_sync_keeps_store (s : Snapshot) (ok : bool) (st : Hybrid.State) :
  Hybrid.dbRef st = true ->
  ok = false \/ ~ NoDup (ids s) ->
  Hybrid.sync_callback s ok st
  = Hybrid.emit Hybrid.ConsoleError (Hybrid.emit (Hybrid.StoreSync s false) st)
  /\ Hybrid.cart (Hybrid.sync_callback s ok st) = Hybrid.cart st
  /\ Hybrid.items (Hybrid.sync_callback s ok st) = Hybrid.items st.
Proof.
  intros Hdb Hfail.
  assert (E : Hybrid.sync_callback s ok st
              = Hybrid.emit Hybrid.ConsoleError (Hybrid.emit (Hybrid.StoreSync s false) st)).
  { unfold Hybrid.sync_callback. rewrite Hdb. simpl.
    destruct ok; [|reflexivity].
    destruct Hfail as [Hf|Hdup]; [discriminate|].
    destruct (ObjectStore.add_each s (ObjectStore.clear (Hybrid.cart st))) eqn:A;
      [|reflexivity].
    exfalso. apply Hdup. exact (proj1 (add_each_Some _ _ _ A)). }
  rewrite E. repeat split.
Qed.

Lemma failed_sync_keeps_store_witness :
  let st := Hybrid.advance 1000 true
              (Hybrid.addItem laptop (Hybrid.init true (Hybrid.initial None ∅))) in
  let twice := [LineItem.of_product laptop 1; LineItem.of_product laptop 3] in
  Hybrid.cart (Hybrid.sync_callback twice true st) = Hybrid.cart st.
Proof.
  apply (failed_sync_keeps_store
           [LineItem.of_product laptop 1; LineItem.of_product laptop 3] true
           (Hybrid.advance 1000 true
              (Hybrid.addItem laptop (Hybrid.init true (Hybrid.initial None ∅))))).
  - reflexivity.
  - right. intros H. apply NoDup_ListNoDup in H. inversion H as [|? ? Hin _]; subst.
    apply Hin. left. reflexivity.
Defined.

(** X15. In the hybrid variant [removeItem] and [updateQuantity] (quantity at
    least 1) with an id that is not in the cart leave the snapshot as it is
    and still go through [updateStorage]: the [localStorage] slot is
    rewritten, the debounce timer is set anew, one delay from now, and the
    unchanged snapshot is broadcast. *)
Theorem absent_id_still_updates_storage (a : Hybrid.Action) (productId quantity : Z)
    (st : Hybrid.State) :
  Hybrid.timers_wf st ->
  Forall (fun item => LineItem.id item <> productId) (Hybrid.items st) ->
  1 <= quantity ->
  a = Hybrid.RemoveItem productId \/ a = Hybrid.UpdateQuantity productId quantity ->
  let st' := Hybrid.step st a in
  Hybrid.items st' = Hybrid.items st
  /\ Hybrid.localStorage st' = Some (Hybrid.Json (Hybrid.items st))
  /\ Hybrid.timers st'
     = [Hybrid.mkTimer (Hybrid.next_timer st) (Hybrid.clock st + Hybrid.debounce)
          (Hybrid.items st)]
  /\ Lifecycle.broadcasts a st = [Hybrid.PostMessage (Hybrid.items st)].
Proof.
  intros Hwf Habsent Hq Ha st'.
  assert (Hd : Hybrid.debounced a = true).
  { destruct Ha as [->| ->]; simpl; [reflexivity|].
    destruct (Z.ltb_spec quantity 1); [lia|reflexivity]. }
  assert (Hi : Hybrid.items st' = Hybrid.items st).
  { subst st'. destruct Ha as [->| ->]; unfold Hybrid.step.
    - rewrite hybrid_items_removeItem. apply filter_absent_id, Habsent.
    - rewrite hybrid_items_updateQuantity. unfold Context.updateQuantity.
      destruct (Z.ltb_spec quantity 1); [lia|]. apply map_absent_id, Habsent. }
  destruct (debounced_step a st Hd Hwf) as (Ht & _ & _ & _ & _ & Hls & _).
  fold st' in Ht, Hls.
  rewrite (broadcasts_effective a st (or_introl Hd)). fold st'.
  rewrite Ht, Hls, Hi. repeat split.
Qed.

Lemma absent_id_still_updates_storage_witness :
  Lifecycle.broadcasts (Hybrid.RemoveItem 9)
    (Hybrid.addItem laptop (Hybrid.initial None ∅))
  = [Hybrid.PostMessage [LineItem.of_product laptop 1]].
Proof.
  apply (absent_id_still_updates_storage (Hybrid.RemoveItem 9) 9 1
           (Hybrid.addItem laptop (Hybrid.initial None ∅))).
  - vm_compute. reflexivity.
  - repeat constructor. simpl. lia.
  - lia.
  - left. reflexivity.
Defined.

(** ** The IndexedDB variant: the store and the snapshot *)

Lemma find_item_map k (f : LineItem.t -> LineItem.t) (s : Snapshot) :
  (forall x, LineItem.id (f x) = LineItem.id x) ->
  find_item k (map f s) = f <$> find_item k s.
Proof.
  intros Hf. unfold find_item. induction s as [|x s IH]; simpl; [reflexivity|].
  rewrite Hf. destruct (LineItem.id x =? k); [reflexivity|exact IH].
Qed.

Lemma find_item_app k (a b : Snapshot) :
  find_item k (a ++ b)
  = match find_item k a with
    | Some x => Some x
    | None => find_item k b
    end.
Proof.
  unfold find_item. induction a as [|x a IH]; simpl; [reflexivity|].
  destruct (LineItem.id x =? k); [reflexivity|exact IH].
Qed.

Lemma find_item_removed k productId (s : Snapshot) :
  find_item k (removeItem_newItems productId s)
  = if k =? productId then None else find_item k s.
Proof.
  unfold find_item, removeItem_newItems. induction s as [|x s IH]; simpl.
  - destruct (k =? productId); reflexivity.
  - destruct (Z.eqb_spec (LineItem.id x) productId) as [E|E]; simpl.
    + rewrite IH. destruct (Z.eqb_spec k productId) as [E'|E']; [reflexivity|].
      destruct (Z.eqb_spec (LineItem.id x) k); [congruence|reflexivity].
    + destruct (Z.eqb_spec (LineItem.id x) k) as [E'|E'].
      * destruct (Z.eqb_spec k productId); [congruence|reflexivity].
      * exact IH.
Qed.

Lemma replace_in_sync productId (newItem e : LineItem.t) (s : Snapshot)
    (store : gmap Z LineItem.t) :
  LineItem.id newItem = productId ->
  find_item productId s = Some e ->
  NoDup (ids s) ->
  (forall k, store !! k = find_item k s) ->
  let s' := map (fun item => if LineItem.id item =? productId then newItem else item) s in
  NoDup (ids s')
  /\ forall k, ObjectStore.put newItem store !! k = find_item k s'.
Proof.
  intros Hid Hfind Hnd Hsync s'.
  assert (Hf : forall x,
            LineItem.id (if LineItem.id x =? productId then newItem else x) = LineItem.id x).
  { intros x. destruct (Z.eqb_spec (LineItem.id x) productId); congruence. }
  split.
  - subst s'. rewrite ids_map_same_id; assumption.
  - intros k. subst s'. rewrite find_item_map by exact Hf.
    unfold ObjectStore.put. rewrite Hid.
    destruct (Z.eq_dec productId k) as [<-|Hne].
    + rewrite lookup_insert_eq, Hfind. simpl.
      apply find_item_elem_inv in Hfind as [_ He]. apply Z.eqb_eq in He.
      rewrite He. reflexivity.
    + rewrite lookup_insert_ne by exact Hne. rewrite Hsync.
      destruct (find_item k s) as [x|] eqn:F; [|reflexivity]. simpl.
      apply find_item_elem_inv in F as [_ Hx].
      destruct (Z.eqb_spec (LineItem.id x) productId); [congruence|reflexivity].
Qed.

Lemma mutate_in_sync m st :
  Sync.in_sync st -> Sync.in_sync (IndexedDB.mutate m true st).
Proof.
  intros [Hnd Hsync]. unfold Sync.in_sync.
  destruct m as [product|productId quantity|productId|]; simpl.
  - unfold IndexedDB.addItem. destruct (IndexedDB.db st); simpl; [|split; assumption].
    destruct (find_item (Product.id product) (IndexedDB.items st)) as [e|] eqn:F; simpl.
    + apply (replace_in_sync (Product.id product) _ e); try assumption.
      apply find_item_elem_inv in F as [_ He]. exact He.
    + split.
      * unfold ids. rewrite List.map_app. simpl. apply NoDup_app.
        split; [exact Hnd|]. split; [|apply NoDup_singleton].
        intros k Hk Hk'. apply list_elem_of_In in Hk, Hk'. destruct Hk' as [<-|[]].
        apply List.in_map_iff in Hk as (x & Hid & Hx).
        apply find_item_None in F. rewrite List.Forall_forall in F. exact (F x Hx Hid).
      * intros k. rewrite find_item_app. unfold ObjectStore.put. simpl.
        destruct (Z.eq_dec (Product.id product) k) as [<-|Hne].
        -- rewrite lookup_insert_eq, F. unfold find_item. simpl.
           rewrite Z.eqb_refl. reflexivity.
        -- rewrite lookup_insert_ne by exact Hne. rewrite Hsync.
           destruct (find_item k (IndexedDB.items st)); [reflexivity|].
           unfold find_item. simpl.
           destruct (Z.eqb_spec (Product.id product) k); [contradiction|reflexivity].
  - unfold IndexedDB.updateQuantity.
    destruct (negb (IndexedDB.db st) || (quantity <? 1)); [split; assumption|].
    destruct (find_item productId (IndexedDB.items st)) as [e|] eqn:F; [|split; assumption].
    simpl. apply (replace_in_sync productId _ e); try assumption.
    apply find_item_elem_inv in F as [_ He]. exact He.
  - unfold IndexedDB.removeItem. destruct (IndexedDB.db st); simpl; [|split; assumption].
    split; [apply removeItem_NoDup, Hnd|].
    intros k. fold (removeItem_newItems productId (IndexedDB.items st)).
    rewrite find_item_removed. unfold ObjectStore.delete.
    destruct (Z.eqb_spec k productId) as [->|Hne].
    + apply lookup_delete_eq.
    + rewrite lookup_delete_ne by congruence. apply Hsync.
  - unfold IndexedDB.clearCart. destruct (IndexedDB.db st); simpl; [|split; assumption].
    split; [constructor|]. intros k. apply lookup_empty.
Qed.

Lemma handleMessage_in_sync type st :
  Sync.in_sync st -> Sync.in_sync (IndexedDB.handleMessage type st).
Proof.
  intros [Hnd Hsync]. unfold IndexedDB.handleMessage.
  destruct (String.eqb type "CART_UPDATED" && IndexedDB.db st); [|split; assumption].
  pose proof (find_keyed _ _ Hsync) as Hk. split; simpl.
  - apply getAll_NoDup, Hk.
  - intros k. symmetry. apply getAll_find, Hk.
Qed.



Lemma perform_in_sync m st : Sync.in_sync st -> Sync.in_sync (Sync.perform m st).
Proof.
  intros H. unfold Sync.perform. destruct (Sync.posts m st).
  - apply handleMessage_in_sync, mutate_in_sync, H.
  - apply mutate_in_sync, H.
Qed.

Lemma session_in_sync ms st : Sync.in_sync st -> Sync.in_sync (Sync.session ms st).
Proof.
  revert st. induction ms as [|m ms IH]; intros st H; [exact H|].
  simpl. apply IH, perform_in_sync, H.
Qed.





(** X17. When the database opens, [init] of the IndexedDB variant stores the
    handle, ends the loading phase and shows the records of the object store
    in ascending order of id; the snapshot and the store then agree. *)
Theorem indexeddb_init_loads_store (st : IndexedDB.State) :
  Sync.keyed (IndexedDB.cart st) ->
  let st' := IndexedDB.init true st in
  IndexedDB.db st' = true
  /\ IndexedDB.loading st' = false
  /\ IndexedDB.cart st' = IndexedDB.cart st
  /\ IndexedDB.items st' = ObjectStore.getAll (IndexedDB.cart st)
  /\ Sorted Sync.id_le (IndexedDB.items st')
  /\ (forall item, item ∈ IndexedDB.items st'
                   <-> IndexedDB.cart st !! LineItem.id item = Some item)
  /\ Sync.in_sync st'.
Proof.
  intros Hk. cbv zeta. simpl.
  split; [reflexivity|]. split; [reflexivity|]. split; [reflexivity|].
  split; [reflexivity|]. split; [apply getAll_sorted, Hk|].
  split; [intros item; apply getAll_elem, Hk|].
  split; [apply getAll_NoDup, Hk|].
  intros k. symmetry. apply getAll_find, Hk.
Qed.

Lemma indexeddb_init_loads_store_witness :
  IndexedDB.items
    (IndexedDB.init true
       (IndexedDB.initial
          (ObjectStore.put (LineItem.of_product laptop 2)
             (ObjectStore.put (LineItem.of_product headphones 1) ∅))))
  = [LineItem.of_product laptop 2; LineItem.of_product headphones 1].
Proof.
  destruct (indexeddb_init_loads_store
              (IndexedDB.initial
                 (ObjectStore.put (LineItem.of_product laptop 2)
                    (ObjectStore.put (LineItem.of_product headphones 1) ∅))))
    as (_ & _ & _ & H & _).
  - intros k item. unfold ObjectStore.put. simpl.
    intros H. apply lookup_insert_Some in H as [[<- <-]|[_ H]]; [reflexivity|].
    apply lookup_insert_Some in H as [[<- <-]|[_ H]]; [reflexivity|].
    rewrite lookup_empty in H. discriminate.
  - rewrite H. vm_compute. reflexivity.
Defined.

(** X18. When the database does not open, [init] of the IndexedDB variant
    ends the loading phase with the snapshot as it was, and from then on the
    provider ignores everything: each of the four mutations returns without
    any effect, whatever its argument, and so does every message. *)
Theorem indexeddb_without_database (st : IndexedDB.State) :
  IndexedDB.db st = false ->
  let st' := IndexedDB.init false st in
  IndexedDB.loading st' = false
  /\ IndexedDB.items st' = IndexedDB.items st
  /\ IndexedDB.cart st' = IndexedDB.cart st
  /\ (forall m ok, IndexedDB.mutate m ok st' = st')
  /\ (forall type, IndexedDB.handleMessage type st' = st').
Proof.
  intros Hdb. cbv zeta.
  assert (Hdb' : IndexedDB.db (IndexedDB.init false st) = false) by exact Hdb.
  split; [reflexivity|]. split; [reflexivity|]. split; [reflexivity|]. split.
  - intros m ok. destruct m; cbn [IndexedDB.mutate];
      [unfold IndexedDB.addItem|unfold IndexedDB.updateQuantity
      |unfold IndexedDB.removeItem|unfold IndexedDB.clearCart];
      rewrite Hdb'; reflexivity.
  - intros type. unfold IndexedDB.handleMessage. rewrite Hdb', andb_false_r. reflexivity.
Qed.

Lemma indexeddb_without_database_witness :
  IndexedDB.items
    (IndexedDB.mutate (IndexedDB.AddItem laptop) true
       (IndexedDB.init false (IndexedDB.initial ∅))) = [].
Proof.
  destruct (indexeddb_without_database (IndexedDB.initial ∅)) as (_ & _ & _ & H & _).
  - reflexivity.
  - rewrite H. reflexivity.
Defined.

(** X19. In the IndexedDB variant a tab answers a [CART_UPDATED] signal by
    reading the shared object store: when the store agrees with the snapshot
    of the tab that wrote it, the reading tab ends with the same items, in
    ascending order of id. A signal of another type, or one that arrives
    before the database is open, changes nothing. *)
Theorem indexeddb_signal_reloads (stA stB : IndexedDB.State) (type : string) :
  Sync.in_sync stA ->
  let shared := Sync.attach (IndexedDB.cart stA) stB in
  let stB' := IndexedDB.handleMessage type shared in
  (type = "CART_UPDATED"%string -> IndexedDB.db stB = true ->
   IndexedDB.items stB' ≡ₚ IndexedDB.items stA
   /\ Sorted Sync.id_le (IndexedDB.items stB')
   /\ Sync.in_sync stB')
  /\ (type <> "CART_UPDATED"%string \/ IndexedDB.db stB = false -> stB' = shared).
Proof.
  intros [Hnd Hsync]. cbv zeta. pose proof (find_keyed _ _ Hsync) as Hk.
  unfold IndexedDB.handleMessage, Sync.attach. simpl. split.
  - intros -> Hdb. rewrite Hdb. simpl.
    split; [apply getAll_agrees; assumption|].
    split; [apply getAll_sorted, Hk|].
    split; [apply getAll_NoDup, Hk|].
    intros k. simpl. symmetry. apply getAll_find, Hk.
  - intros [Ht|Hdb].
    + apply String.eqb_neq in Ht. rewrite Ht. reflexivity.
    + rewrite Hdb, andb_false_r. reflexivity.
Qed.

Lemma indexeddb_signal_reloads_witness :
  let stA := Sync.session [IndexedDB.AddItem smartphone; IndexedDB.AddItem laptop]
               (IndexedDB.init true (IndexedDB.initial ∅)) in
  let stB := IndexedDB.init true (IndexedDB.initial ∅) in
  IndexedDB.items (IndexedDB.handleMessage "CART_UPDATED"
                     (Sync.attach (IndexedDB.cart stA) stB))
  ≡ₚ IndexedDB.items stA.
Proof.
  destruct (indexeddb_signal_reloads
              (Sync.session [IndexedDB.AddItem smartphone; IndexedDB.AddItem laptop]
                 (IndexedDB.init true (IndexedDB.initial ∅)))
              (IndexedDB.init true (IndexedDB.initial ∅)) "CART_UPDATED") as (H & _).
  - apply session_in_sync. split; [constructor|]. intros k. reflexivity.
  - destruct H as (H & _); [reflexivity|reflexivity|exact H].
Defined.

(** X20. The failed [updateQuantity] of the IndexedDB variant leaves the new
    quantity in the snapshot while the object store keeps the old record:
    from a state in which store and snapshot agree, a request that fails for
    a quantity (at least 1) other than the current one ends in a state in
    which they disagree on that item. *)
Theorem failed_updateQuantity_diverges (productId quantity : Z) (e : LineItem.t)
    (st : IndexedDB.State) :
  Sync.in_sync st ->
  IndexedDB.db st = true ->
  find_item productId (IndexedDB.items st) = Some e ->
  1 <= quantity ->
  quantity <> LineItem.quantity e ->
  let st' := IndexedDB.updateQuantity productId quantity false st in
  IndexedDB.cart st' !! productId = Some e
  /\ find_item productId (IndexedDB.items st') = Some (LineItem.with_quantity e quantity)
  /\ ~ Sync.in_sync st'.
Proof.
  intros [Hnd Hsync] Hdb Hfind Hq Hne st'.
  assert (Hc : IndexedDB.cart st' !! productId = Some e).
  { subst st'. unfold IndexedDB.updateQuantity. rewrite Hdb, Hfind.
    destruct (Z.ltb_spec quantity 1); [lia|]. simpl. rewrite Hsync. exact Hfind. }
  assert (Hi : find_item productId (IndexedDB.items st')
               = Some (LineItem.with_quantity e quantity)).
  { subst st'. rewrite indexeddb_updateQuantity_failed.
    unfold IndexedDB.updateQuantity. rewrite Hdb, Hfind.
    destruct (Z.ltb_spec quantity 1); [lia|]. simpl.
    rewrite find_item_map.
    - rewrite Hfind. simpl. apply find_item_elem_inv in Hfind as [_ He].
      apply Z.eqb_eq in He. rewrite He. reflexivity.
    - intros x. destruct (Z.eqb_spec (LineItem.id x) productId); [|reflexivity].
      simpl. apply find_item_elem_inv in Hfind as [_ He]. congruence. }
  split; [exact Hc|]. split; [exact Hi|].
  intros [_ Hsync']. rewrite Hsync', Hi in Hc. injection Hc as Hc.
  apply Hne. rewrite <- Hc. reflexivity.
Qed.

Lemma failed_updateQuantity_diverges_witness :
  let st := Sync.session [IndexedDB.AddItem laptop]
              (IndexedDB.init true (IndexedDB.initial ∅)) in
  IndexedDB.cart (IndexedDB.updateQuantity 1 5 false st) !! 1
  = Some (LineItem.of_product laptop 1).
Proof.
  apply (failed_updateQuantity_diverges 1 5 (LineItem.of_product laptop 1)
           (Sync.session [IndexedDB.AddItem laptop]
              (IndexedDB.init true (IndexedDB.initial ∅)))).
  - apply session_in_sync. split; [constructor|]. intros k. reflexivity.
  - reflexivity.
  - reflexivity.
  - lia.
  - simpl. lia.
Defined.
